(** * sky.py: catalogue parsers, grouping and compact serializer

    A shallow embedding of [sky.py] (Python 2) and the properties of its
    parsing, grouping and serializing routines.

    Python values are modelled as the interpreter has them:
    - [int]/[long] as [Z] (unbounded);
    - [float] as an IEEE 754 binary64 number, [spec_float] with
      [prec = 53] and [emax = 1024], rounding to nearest even;
    - [str] as a [string] of bytes;
    - exceptions as an error monad [result].  *)

From Stdlib Require Import ZArith Lia List Ascii String Bool.
From Stdlib Require Import Floats.SpecFloat.
From stdpp Require Import base gmap strings list sorting.

Local Open Scope Z_scope.
#[local] Set Warnings "-register-all".

(** ** Exceptions *)

Inductive exn : Type :=
| ValueError
| AssertionError
| OverflowError
| UnicodeDecodeError.

Inductive result (A : Type) : Type :=
| Ok (a : A)
| Raise (e : exn).
Arguments Ok {A} a.
Arguments Raise {A} e.

#[global] Instance result_ret : MRet result := fun A a => Ok a.
#[global] Instance result_bind : MBind result := fun A B k c =>
  match c with
  | Ok a => k a
  | Raise e => Raise e
  end.

(** [[f(x) for x in l]]: the calls happen left to right and the first
    exception ends the comprehension. *)
Fixpoint map_result {A B : Type} (f : A -> result B) (l : list A)
  : result (list B) :=
  match l with
  | [] => Ok []
  | x :: l' => y ← f x; ys ← map_result f l'; Ok (y :: ys)
  end.

(** ** Byte strings *)

Definition is_space (c : ascii) : bool := Ascii.is_space c.

Definition digit_of (c : ascii) : option Z :=
  let n := Z.of_N (N_of_ascii c) in
  if (48 <=? n) && (n <=? 57) then Some (n - 48) else None.

Definition is_digit (c : ascii) : bool :=
  match digit_of c with Some _ => true | None => false end.

Fixpoint lstrip (s : string) : string :=
  match s with
  | String c s' => if is_space c then lstrip s' else s
  | EmptyString => EmptyString
  end.

Fixpoint all_space (s : string) : bool :=
  match s with
  | String c s' => is_space c && all_space s'
  | EmptyString => true
  end.

(** Longest prefix of decimal digits, as the number it denotes (with the
    accumulator [acc] in front), the count of digits and the rest. *)
Fixpoint take_digits (acc : Z) (n : nat) (s : string) : Z * nat * string :=
  match s with
  | String c s' =>
      match digit_of c with
      | Some d => take_digits (10 * acc + d) (S n) s'
      | None => (acc, n, s)
      end
  | EmptyString => (acc, n, s)
  end.

(** [s.split(sep)]: split at every occurrence of the one-character
    separator; the result is never empty. *)
Fixpoint split (sep : ascii) (s : string) : list string :=
  match s with
  | EmptyString => [EmptyString]
  | String c s' =>
      if Ascii.eqb c sep then EmptyString :: split sep s'
      else match split sep s' with
           | w :: ws => String c w :: ws
           | [] => [String c EmptyString]
           end
  end.

(** [s.split(sep, maxsplit)]: at most [maxsplit] cuts, the remainder is
    kept whole as the last item. *)
Fixpoint split_max (sep : ascii) (maxsplit : nat) (s : string) {struct s}
  : list string :=
  match maxsplit with
  | O => [s]
  | S k =>
      match s with
      | EmptyString => [EmptyString]
      | String c s' =>
          if Ascii.eqb c sep then EmptyString :: split_max sep k s'
          else match split_max sep maxsplit s' with
               | w :: ws => String c w :: ws
               | [] => [String c EmptyString]
               end
      end
  end.

(** [int(s)] of Python 2 on a [str], base 10: surrounding white space is
    skipped, one sign is allowed (and, in Python 2, white space after the
    sign), then at least one digit and nothing else. *)
Definition py_int (s : string) : result Z :=
  let s1 := lstrip s in
  let '(neg, s2) :=
    match s1 with
    | String "-" r => (true, r)
    | String "+" r => (false, r)
    | _ => (false, s1)
    end in
  let '(v, n, rest) := take_digits 0 O (lstrip s2) in
  match n with
  | O => Raise ValueError
  | S _ => if all_space rest then Ok (if neg then - v else v)
           else Raise ValueError
  end.

(** ** Floats *)

Abbreviation float := spec_float.

Definition prec : Z := 53.
Definition emax : Z := 1024.

Definition float_zero : float := S754_zero false.

(** Nearest binary64 number to an integer (ties to even); an integer too
    large gives an infinity. *)
Definition round_Z (z : Z) : float := binary_normalize prec emax z 0 false.

(** Conversion of an [int] or [long] operand to a C double: raises
    [OverflowError] where the rounded value is not finite. *)
Definition float_of_int (z : Z) : result float :=
  match round_Z z with
  | S754_infinity _ => Raise OverflowError
  | f => Ok f
  end.

Definition sign_bit (f : float) : bool :=
  match f with
  | S754_zero s | S754_infinity s | S754_finite s _ _ => s
  | S754_nan => false
  end.

(** C's [copysign(x, y)]: magnitude of [x], sign of [y]. *)
Definition copysign (x y : float) : float :=
  if sign_bit y then SFopp (SFabs x) else SFabs x.

(** [math.copysign(m, d)] on two integers: both are converted to double
    first, and the result is a float. *)
Definition math_copysign (m d : Z) : result float :=
  x ← float_of_int m;
  y ← float_of_int d;
  Ok (copysign x y).

(** [i + f] for an integer [i] and a float [f]: the integer is converted
    and the doubles are added. *)
Definition int_add_float (i : Z) (f : float) : result float :=
  x ← float_of_int i;
  Ok (SFadd prec emax x f).

(** Comparisons of floats as Python's [<] and [<=]. *)
Definition float_lt (x y : float) : bool := SFltb x y.
Definition float_le (x y : float) : bool := SFleb x y.

(** Nearest binary64 number to [(-1)^neg * m * 10^e], for [0 <= m]: what a
    correctly rounding decimal-to-binary conversion returns (overflow gives
    an infinity, underflow a zero or a subnormal). *)
Definition round_decimal (neg : bool) (m e : Z) : float :=
  match m with
  | Zpos p =>
      if 0 <=? e then binary_round prec emax neg (p * Z.to_pos (10 ^ e)) 0
      else SFdiv prec emax (S754_finite neg p 0)
                 (S754_finite false (Z.to_pos (10 ^ (- e))) 0)
  | _ => S754_zero neg
  end.

Definition lower_char (c : ascii) : ascii :=
  let n := N_of_ascii c in
  if ((65 <=? n) && (n <=? 90))%N then ascii_of_N (n + 32) else c.

Definition upper_char (c : ascii) : ascii :=
  let n := N_of_ascii c in
  if ((97 <=? n) && (n <=? 122))%N then ascii_of_N (n - 32) else c.

Fixpoint map_string (f : ascii -> ascii) (s : string) : string :=
  match s with
  | String c s' => String (f c) (map_string f s')
  | EmptyString => EmptyString
  end.

(** [s.upper()] on a byte string (C locale: only [a-z] change). *)
Definition upper (s : string) : string := map_string upper_char s.

(** [match_prefix p s]: the rest of [s] after the prefix [p], compared
    without regard to case ([p] is given in lower case). *)
Fixpoint match_prefix (p s : string) : option string :=
  match p with
  | EmptyString => Some s
  | String a p' =>
      match s with
      | String c s' =>
          if Ascii.eqb (lower_char c) a then match_prefix p' s' else None
      | EmptyString => None
      end
  end.

(** The words [inf], [infinity] and [nan] that [float()] accepts. *)
Definition special_float (s : string) : option (float * string) :=
  match match_prefix "inf" s with
  | Some r =>
      match match_prefix "inity" r with
      | Some r' => Some (S754_infinity false, r')
      | None => Some (S754_infinity false, r)
      end
  | None =>
      match match_prefix "nan" s with
      | Some r => Some (S754_nan, r)
      | None => None
      end
  end.

Definition take_sign (s : string) : bool * string :=
  match s with
  | String "-" r => (true, r)
  | String "+" r => (false, r)
  | _ => (false, s)
  end.

(** The exponent part [e[+-]digits] of a decimal number; where the digits
    are missing nothing is consumed. *)
Definition take_exponent (s : string) : Z * string :=
  match s with
  | String c r =>
      if Ascii.eqb (lower_char c) "e" then
        let '(neg, r1) := take_sign r in
        let '(v, n, r2) := take_digits 0 O r1 in
        match n with
        | O => (0, s)
        | S _ => (if neg then - v else v, r2)
        end
      else (0, s)
  | EmptyString => (0, s)
  end.

(** [float(s)] on a [str] (Python 2.7): surrounding white space is
    skipped; a sign, then either one of the special words or a decimal
    number [digits[.digits][e[+-]digits]] with at least one digit in the
    mantissa; the value is rounded to nearest. *)
Definition py_float (s : string) : result float :=
  let '(neg, s1) := take_sign (lstrip s) in
  match special_float s1 with
  | Some (f, rest) =>
      if all_space rest then Ok (if neg then SFopp f else f)
      else Raise ValueError
  | None =>
      let '(ip, n1, r1) := take_digits 0 O s1 in
      let '(m, n2, r2) :=
        match r1 with
        | String "." r => take_digits ip O r
        | _ => (ip, O, r1)
        end in
      match (n1 + n2)%nat with
      | O => Raise ValueError
      | S _ =>
          let '(ex, r3) := take_exponent r2 in
          if all_space r3 then Ok (round_decimal neg m (ex - Z.of_nat n2))
          else Raise ValueError
      end
  end.

(** A float literal of the program text, read as [float()] reads it. *)
Definition float_literal (s : string) : float :=
  match py_float s with
  | Ok f => f
  | Raise _ => S754_nan
  end.

(** [int(f)] on a float: truncation toward zero. *)
Definition int_of_float (f : float) : result Z :=
  match f with
  | S754_nan => Raise ValueError
  | S754_infinity _ => Raise OverflowError
  | S754_zero _ => Ok 0
  | S754_finite s m e =>
      let a := if 0 <=? e then Zpos m * 2 ^ e else Zpos m / 2 ^ (- e) in
      Ok (if s then - a else a)
  end.

(** ** Python values that reach the serializer *)

Inductive pyval : Type :=
| PInt (z : Z)
| PFloat (f : float)
| PStr (s : string)
| PList (l : list pyval)
| PTuple (l : list pyval)
| PDict (items : list (string * pyval)).

(** Induction on values, through the lists of items. *)
Section pyval_induction.
Variable P : pyval -> Prop.
Hypothesis HInt : forall z, P (PInt z).
Hypothesis HFloat : forall f, P (PFloat f).
Hypothesis HStr : forall s, P (PStr s).
Hypothesis HList : forall l, Forall P l -> P (PList l).
Hypothesis HTuple : forall l, Forall P l -> P (PTuple l).
Hypothesis HDict :
  forall items, Forall (fun kv => P (snd kv)) items -> P (PDict items).

Fixpoint pyval_induction (v : pyval) : P v :=
  let all :=
    fix all (l : list pyval) : Forall P l :=
      match l with
      | [] => @List.Forall_nil _ P
      | x :: l' => @List.Forall_cons _ P x l' (pyval_induction x) (all l')
      end in
  match v with
  | PInt z => HInt z
  | PFloat f => HFloat f
  | PStr s => HStr s
  | PList l => HList l (all l)
  | PTuple l => HTuple l (all l)
  | PDict items =>
      HDict items
        ((fix all_items (l : list (string * pyval))
            : Forall (fun kv => P (snd kv)) l :=
            match l with
            | [] => @List.Forall_nil _ _
            | kv :: l' =>
                @List.Forall_cons _ (fun kv => P (snd kv)) kv l'
                  (pyval_induction (snd kv)) (all_items l')
            end) items)
  end.
End pyval_induction.

(** Iterating a generator: each [next()] yields an item or raises, and a
    generator that raised is finished. [list(gen)] collects the items and
    passes the exception on. *)
Fixpoint py_list {A : Type} (gen : list (result A)) : result (list A) :=
  match gen with
  | [] => Ok []
  | r :: gen' => x ← r; xs ← py_list gen'; Ok (x :: xs)
  end.

(** A [for] loop with a body that may raise, threading the loop state. *)
Fixpoint for_each {A S : Type} (body : S -> A -> result S) (l : list A)
  (st : S) : result S :=
  match l with
  | [] => Ok st
  | x :: l' => st' ← body st x; for_each body l' st'
  end.

(** [sorted(d.items())]: the keys of a dict are distinct, so the order of
    the (key, value) pairs is the order of their keys. *)
Definition sorted_items {K V : Type} (le : relation K)
  `{!RelDecision le} (items : list (K * V)) : list (K * V) :=
  @merge_sort (K * V) (fun x y => le x.1 y.1)
    (fun x y => decide_rel le x.1 y.1) items.

(** ** Star catalogue: [parse_hipparcos], [group_stars_by_magnitude] *)

(** A record [(ra, dec, magnitude, bv)]. *)
Definition star_record : Type := float * float * float * float.

(** [line[i:j]] *)
Definition slice (i j : nat) (line : string) : string :=
  String.substring i (j - i) line.

Definition parse_hipparcos_line (line : string) : result star_record :=
  magnitude ← py_float (slice 41 46 line);
  ra ← py_float (slice 51 63 line);
  dec ← py_float (slice 64 76 line);
  bv ← py_float (slice 245 251 line);
  Ok (ra, dec, magnitude, bv).

Definition parse_hipparcos (lines : list string) : list (result star_record) :=
  map parse_hipparcos_line lines.

Definition lit_0_00 : float := Eval vm_compute in float_literal "0.00".
Definition lit_0_59 : float := Eval vm_compute in float_literal "0.59".
Definition lit_15_0 : float := Eval vm_compute in float_literal "15.0".

(** The [if]/[elif]/[else] chain on [bv]. *)
Definition color_of (bv : float) : string :=
  if float_lt bv lit_0_00 then "blue"
  else if float_lt bv lit_0_59 then "white"
  else "red".

(** Order of the keys [(int(magnitude), color)], as tuples compare. *)
Definition key_le (k1 k2 : Z * string) : Prop :=
  k1.1 < k2.1 \/ (k1.1 = k2.1 /\ String.le k1.2 k2.2).

#[global] Instance key_le_dec : RelDecision key_le.
Proof. intros k1 k2. unfold key_le. apply _. Defined.

Definition magnitude_groups_t : Type := gmap (Z * string) (list pyval).

(** One turn of the loop of [group_stars_by_magnitude]; the missing key
    of the [defaultdict(list)] reads as the empty list. *)
Definition group_star (magnitude_groups : magnitude_groups_t)
  (r : star_record) : result magnitude_groups_t :=
  let '(ra, dec, magnitude, bv) := r in
  let radec := PList [PFloat (SFopp ra); PFloat dec] in
  let color := color_of bv in
  mag ← int_of_float magnitude;
  let key := (mag, color) in
  Ok (<[key := default [] (magnitude_groups !! key) ++ [radec]]>
        magnitude_groups).

Fixpoint group_loop (records : list (result star_record))
  (magnitude_groups : magnitude_groups_t) : result magnitude_groups_t :=
  match records with
  | [] => Ok magnitude_groups
  | r :: records' =>
      rec ← r;
      groups' ← group_star magnitude_groups rec;
      group_loop records' groups'
  end.

Definition group_stars_by_magnitude (records : list (result star_record))
  : result magnitude_groups_t :=
  group_loop records ∅.

(** The dict literal of [build_star_data]. *)
Record multipoint : Type := MultiPoint {
  mp_coordinates : list pyval;
  mp_magnitude : Z;
  mp_color : string
}.

Definition build_star_data (lines : list string) : result (list multipoint) :=
  magnitude_groups ← group_stars_by_magnitude (parse_hipparcos lines);
  Ok (map (fun '((mag, color), coordinates) =>
             MultiPoint coordinates mag color)
          (sorted_items key_le (map_to_list magnitude_groups))).

(** ** Constellation boundaries: [build_boundary_data] *)

(** [h, m, s = [int(s) for s in text.split(':')]] *)
Definition int_triple (text : string) : result (Z * Z * Z) :=
  l ← map_result py_int (split ":" text);
  match l with
  | [a; b; c] => Ok (a, b, c)
  | _ => Raise ValueError
  end.

(** Lines 45-46: right ascension in seconds. *)
Definition ra_of_text (ra_text : string) : result Z :=
  '(h, m, s) ← int_triple ra_text;
  Ok ((60 * h + m) * 60 + s).

(** Lines 47-50: declination in minutes of arc. *)
Definition dec_of_text (dec_text : string) : result float :=
  '(d, m, s) ← int_triple dec_text;
  if s =? 0 then
    m' ← math_copysign m d;
    int_add_float (60 * d) m'
  else Raise AssertionError.

Definition boundaries_t : Type := gmap string (list pyval).

(** Lines 44-50 of the loop over [bound_verts_18.txt]: the constellation
    and the vertex [[ra, dec]] of one line. *)
Definition vertex_of_line (line : string) : result (string * pyval) :=
  match split_max " " 4 line with
  | [vertex_key; ra_text; dec_text; con; cons'] =>
      ra ← ra_of_text ra_text;
      dec ← dec_of_text dec_text;
      Ok (con, PList [PInt ra; PFloat dec])
  | _ => Raise ValueError
  end.

(** One turn of the loop, with line 51: [boundaries[con].append(...)] on
    the [defaultdict(list)]. *)
Definition boundary_line (boundaries : boundaries_t) (line : string)
  : result boundaries_t :=
  '(con, vertex) ← vertex_of_line line;
  Ok (<[con := default [] (boundaries !! con) ++ [vertex]]> boundaries).

(** The dict literal [{"type": "Polygon", "coordinates": [list(boundary)]}]. *)
Record polygon : Type := Polygon {
  pg_coordinates : list (list pyval)
}.

Definition build_boundary_data (lines : list string)
  : result (gmap string polygon) :=
  boundaries ← for_each boundary_line lines ∅;
  Ok (list_to_map
        (map (fun '(con, boundary) => (con, Polygon [boundary]))
             (sorted_items String.le (map_to_list boundaries)))).

(** ** Label decisions: [load_decision_data] *)

Definition decision : Type := float * float * float * string.

Definition decision_line (line : string) : result decision :=
  match String.words line with
  | [ra0; ra1; dec; con] =>
      a ← py_float ra0;
      b ← py_float ra1;
      c ← py_float dec;
      Ok (SFmul prec emax a lit_15_0, SFmul prec emax b lit_15_0, c,
          upper con)
  | _ => Raise ValueError
  end.

(** The generator, as the results of its successive [next()] calls. *)
Definition load_decision_data (lines : list string) : list (result decision) :=
  map decision_line lines.

(** ** Compact serializer: [jsonify] *)

(** *** [str(int)] *)

Definition digit_char (d : Z) : ascii := ascii_of_N (Z.to_N (48 + d)).

Fixpoint digits_go (fuel : nat) (n : Z) (acc : string) : string :=
  match fuel with
  | O => acc
  | S fuel' =>
      let acc' := String (digit_char (n mod 10)) acc in
      if n <? 10 then acc' else digits_go fuel' (n / 10) acc'
  end.

(** Decimal digits of [0 <= n]; a number has no more decimal digits than
    binary ones. *)
Definition str_of_nat (n : Z) : string :=
  digits_go (S (Z.to_nat (Z.log2 n))) n EmptyString.

Definition str_of_Z (z : Z) : string :=
  if z <? 0 then String "-" (str_of_nat (- z)) else str_of_nat z.

(** *** [repr(float)] *)

(** A positive finite float [m * 2^e] as a fraction. *)
Definition fraction_of (m : positive) (e : Z) : Z * Z :=
  if 0 <=? e then (Zpos m * 2 ^ e, 1) else (Zpos m, 2 ^ (- e)).

(** [decpt]: the power of ten with [10^(decpt-1) <= num/den < 10^decpt],
    for a fraction not below the least positive binary64 number. *)
Definition decimal_point (num den : Z) : Z :=
  Z.of_nat (String.length (str_of_nat (num * 10 ^ 400 / den))) - 400.

(** The [n]-digit decimals [lo * 10^k] and [(lo+1) * 10^k] around
    [num/den], and which one is nearer (ties to the even one). *)
Definition decimal_candidates (num den : Z) (decpt : Z) (n : Z)
  : Z * Z * bool :=
  let k := decpt - n in
  let '(a, b) := if 0 <=? k then (num, den * 10 ^ k)
                 else (num * 10 ^ (- k), den) in
  let lo := a / b in
  let r := a mod b in
  let lo_nearer :=
    match 2 * r ?= b with
    | Lt => true
    | Gt => false
    | Eq => Z.even lo
    end in
  (lo, k, lo_nearer).

(** The shortest decimal that reads back as [f] with at most [n + fuel]
    digits, searched from [n] digits upwards; the nearest of the two
    neighbours where both read back. The last resort, 17 digits, always
    reads back for a binary64 number. *)
Fixpoint shortest_go (fuel : nat) (n : Z) (f : float) (num den decpt : Z)
  : Z * Z :=
  let '(lo, k, lo_nearer) := decimal_candidates num den decpt n in
  let ok_lo := SFeqb (round_decimal false lo k) f in
  let ok_hi := SFeqb (round_decimal false (lo + 1) k) f in
  match fuel with
  | O => (if lo_nearer then lo else lo + 1, k)
  | S fuel' =>
      if ok_lo && (lo_nearer || negb ok_hi) then (lo, k)
      else if ok_hi then (lo + 1, k)
      else shortest_go fuel' (n + 1) f num den decpt
  end.

(** Trailing zeros of the digits move into the exponent. *)
Fixpoint strip_zeros (fuel : nat) (d k : Z) : Z * Z :=
  match fuel with
  | O => (d, k)
  | S fuel' =>
      if (d mod 10 =? 0) && (0 <? d) then strip_zeros fuel' (d / 10) (k + 1)
      else (d, k)
  end.

Fixpoint zeros (n : nat) : string :=
  match n with
  | O => EmptyString
  | S n' => String "0" (zeros n')
  end.

(** The text of [repr] from the digits [ds] and the position [decpt] of
    the decimal point: exponent notation outside [-4 < decpt <= 16]. *)
Definition format_repr (ds : string) (decpt : Z) : string :=
  let n := Z.of_nat (String.length ds) in
  if (decpt <=? -4) || (16 <? decpt) then
    let ex := decpt - 1 in
    let mant :=
      match ds with
      | String c EmptyString => ds
      | String c rest => String c (String "." rest)
      | EmptyString => ds
      end in
    let exs := str_of_nat (Z.abs ex) in
    let exs := if Z.abs ex <? 10 then String "0" exs else exs in
    mant +:+ String "e" (String (if ex <? 0 then "-" else "+") exs)
  else if decpt <=? 0 then
    "0." +:+ zeros (Z.to_nat (- decpt)) +:+ ds
  else if n <=? decpt then
    ds +:+ zeros (Z.to_nat (decpt - n)) +:+ ".0"
  else
    String.substring 0 (Z.to_nat decpt) ds +:+ "." +:+
    String.substring (Z.to_nat decpt) (Z.to_nat (n - decpt)) ds.

(** [repr(f)] for a float (Python 2.7: the shortest text that reads
    back). *)
Definition float_repr (f : float) : string :=
  match f with
  | S754_nan => "nan"
  | S754_infinity s => if s then "-inf" else "inf"
  | S754_zero s => if s then "-0.0" else "0.0"
  | S754_finite s m e =>
      let '(num, den) := fraction_of m e in
      let decpt := decimal_point num den in
      let '(d, k) := shortest_go 16 1 (S754_finite false m e) num den decpt in
      let '(d, k) := strip_zeros 20 d k in
      let ds := str_of_nat d in
      let body := format_repr ds (k + Z.of_nat (String.length ds)) in
      if s then String "-" body else body
  end.

(** [json.dumps] of a float: [repr], but for the values that are not
    finite. *)
Definition float_json (f : float) : string :=
  match f with
  | S754_nan => "NaN"
  | S754_infinity s => if s then "-Infinity" else "Infinity"
  | _ => float_repr f
  end.

(** *** Strings: [encode_basestring_ascii] *)

Definition dquote : ascii := "034".
Definition squote : ascii := "039".
Definition backslash : ascii := "092".

Fixpoint bytes_of (s : string) : list N :=
  match s with
  | String c s' => N_of_ascii c :: bytes_of s'
  | EmptyString => []
  end.

Definition is_cont (b : N) : bool := ((128 <=? b) && (b <=? 191))%N.

(** [s.decode('utf-8')] of Python 2.7: the code points of a byte string,
    or [UnicodeDecodeError]. Bytes below 128 stand for themselves. *)
Fixpoint decode_utf8 (bs : list N) : result (list N) :=
  match bs with
  | [] => Ok []
  | b0 :: r0 =>
      if (b0 <? 128)%N then
        cs ← decode_utf8 r0; Ok (b0 :: cs)
      else if ((194 <=? b0) && (b0 <=? 223))%N then
        match r0 with
        | b1 :: r1 =>
            if is_cont b1 then
              cs ← decode_utf8 r1;
              Ok (((b0 - 192) * 64 + (b1 - 128))%N :: cs)
            else Raise UnicodeDecodeError
        | _ => Raise UnicodeDecodeError
        end
      else if ((224 <=? b0) && (b0 <=? 239))%N then
        match r0 with
        | b1 :: b2 :: r2 =>
            if is_cont b1 && is_cont b2
               && (negb (b0 =? 224)%N || (160 <=? b1)%N) then
              cs ← decode_utf8 r2;
              Ok (((b0 - 224) * 4096 + (b1 - 128) * 64 + (b2 - 128))%N :: cs)
            else Raise UnicodeDecodeError
        | _ => Raise UnicodeDecodeError
        end
      else if ((240 <=? b0) && (b0 <=? 244))%N then
        match r0 with
        | b1 :: b2 :: b3 :: r3 =>
            if is_cont b1 && is_cont b2 && is_cont b3
               && (negb (b0 =? 240)%N || (144 <=? b1)%N)
               && (negb (b0 =? 244)%N || (b1 <=? 143)%N) then
              cs ← decode_utf8 r3;
              Ok (((b0 - 240) * 262144 + (b1 - 128) * 4096
                   + (b2 - 128) * 64 + (b3 - 128))%N :: cs)
            else Raise UnicodeDecodeError
        | _ => Raise UnicodeDecodeError
        end
      else Raise UnicodeDecodeError
  end.

Definition hex_digit (n : N) : ascii :=
  if (n <? 10)%N then ascii_of_N (48 + n) else ascii_of_N (87 + n).

(** [\uXXXX] *)
Definition escape_u (n : N) : string :=
  String backslash (String "u"
    (String (hex_digit (n / 4096 mod 16)) (String (hex_digit (n / 256 mod 16))
    (String (hex_digit (n / 16 mod 16)) (String (hex_digit (n mod 16))
     EmptyString))))).

(** The replacement of one code point: the two-character escapes of
    [ESCAPE_DCT], the printable ASCII characters as they are, everything
    else as [\uXXXX] (a surrogate pair above the basic plane). *)
Definition escape_char (n : N) : string :=
  if (n =? 34)%N then String backslash (String dquote EmptyString)
  else if (n =? 92)%N then String backslash (String backslash EmptyString)
  else if (n =? 8)%N then String backslash "b"
  else if (n =? 12)%N then String backslash "f"
  else if (n =? 10)%N then String backslash "n"
  else if (n =? 13)%N then String backslash "r"
  else if (n =? 9)%N then String backslash "t"
  else if ((32 <=? n) && (n <=? 126))%N then String (ascii_of_N n) EmptyString
  else if (n <? 65536)%N then escape_u n
  else
    let n' := (n - 65536)%N in
    escape_u (55296 + (n' / 1024) mod 1024) +:+ escape_u (56320 + n' mod 1024).

Fixpoint concat_strings (l : list string) : string :=
  match l with
  | [] => EmptyString
  | x :: l' => x +:+ concat_strings l'
  end.

(** A [str] between double quotes, pure ASCII inside. A string with a
    byte above 127 is decoded as UTF-8 first. *)
Definition encode_basestring_ascii (s : string) : result string :=
  cps ← decode_utf8 (bytes_of s);
  Ok (String dquote (concat_strings (map escape_char cps)
                       +:+ String dquote EmptyString)).

(** *** [json.dumps(data, separators=(',', ':'))] *)

(** [sep.join(l)] *)
Fixpoint join (sep : string) (l : list string) : string :=
  match l with
  | [] => EmptyString
  | [x] => x
  | x :: l' => x +:+ sep +:+ join sep l'
  end.

Fixpoint dumps (data : pyval) : result string :=
  let dumps_items :=
    fix go (l : list pyval) : result (list string) :=
      match l with
      | [] => Ok []
      | x :: l' => t ← dumps x; ts ← go l'; Ok (t :: ts)
      end in
  match data with
  | PInt z => Ok (str_of_Z z)
  | PFloat f => Ok (float_json f)
  | PStr s => encode_basestring_ascii s
  | PList l | PTuple l =>
      ts ← dumps_items l;
      Ok ("[" +:+ join "," ts +:+ "]")
  | PDict items =>
      ts ← (fix go (l : list (string * pyval)) : result (list string) :=
              match l with
              | [] => Ok []
              | (k, v) :: l' =>
                  kt ← encode_basestring_ascii k;
                  vt ← dumps v;
                  ts ← go l';
                  Ok ((kt +:+ ":" +:+ vt) :: ts)
              end) items;
      Ok ("{" +:+ join "," ts +:+ "}")
  end.

(** [text.replace(a, b)] for one-character [a] and [b]. *)
Definition replace (a b : ascii) (text : string) : string :=
  map_string (fun c => if Ascii.eqb c a then b else c) text.

Definition jsonify (data : pyval) : result string :=
  text ← dumps data;
  Ok (replace dquote squote text).




(** ** Vocabulary of the statements *)

(** The minutes with the sign of the degrees. *)
Definition signed_minutes (d m : Z) : Z :=
  if d <? 0 then - Z.abs m else Z.abs m.

(** [float_is_Z f z]: the float [f] has exactly the integer value [z]. *)
Definition float_is_Z (f : float) (z : Z) : bool :=
  match f with
  | S754_zero _ => z =? 0
  | S754_finite s m e =>
      let v := if s then Zneg m else Zpos m in
      if 0 <=? e then z =? v * 2 ^ e else v =? z * 2 ^ (- e)
  | _ => false
  end.

(** The binary64 number of the positive integer [n] below 2^53, with the
    sign [s]: the mantissa is [n] shifted up to 53 digits. *)
Definition normal_form (s : bool) (n : positive) : float :=
  match 53 - Zpos (digits2_pos n) with
  | Zpos d => S754_finite s (Pos.iter xO n d) (- Zpos d)
  | _ => S754_finite s n 0
  end.

(** The binary64 number of an integer below 2^53 in magnitude. *)
Definition float_of_Z (z : Z) : float :=
  match z with
  | Z0 => S754_zero false
  | Zpos n => normal_form false n
  | Zneg n => normal_form true n
  end.

(** A line of the decision table with four fields, the first three of
    them numbers, and the record it stands for. *)
Definition decision_of (line : string) (r : decision) : Prop :=
  exists (ra0 ra1 dec con : string) (a b c : float),
    String.words line = [ra0; ra1; dec; con] /\
    py_float ra0 = Ok a /\ py_float ra1 = Ok b /\ py_float dec = Ok c /\
    r = (SFmul prec emax a lit_15_0, SFmul prec emax b lit_15_0, c, upper con).

Definition decision_line_ok (line : string) : Prop :=
  exists r, decision_of line r.

Fixpoint spaces (n : nat) : string :=
  match n with
  | O => EmptyString
  | S n' => String " " (spaces n')
  end.

(** A catalogue line with magnitude 3.2 in columns 42-46, right ascension
    10.0 in columns 52-63, declination 20.0 in columns 65-76 and colour
    index -0.1 in columns 246-251. *)
Definition star_line : string :=
  spaces 41 +:+ " 3.20" +:+ spaces 5 +:+ "10.000000000" +:+ " "
  +:+ "+20.00000000" +:+ spaces 169 +:+ "-0.100" +:+ "|rest".

(** Occurrences of a character in a text. *)
Fixpoint count_char (c : ascii) (s : string) : nat :=
  match s with
  | String a s' => (if Ascii.eqb a c then 1 else 0) + count_char c s'
  | EmptyString => 0
  end.


(** All bytes of the string are ASCII. *)
Definition is_ascii (s : string) : Prop :=
  Forall (fun b => (b < 128)%N) (bytes_of s).

(** The escaped form of an ASCII string, between the quotes. *)
Definition escape_text (s : string) : string :=
  concat_strings (map escape_char (bytes_of s)).

(** One item of a dict as [dumps] writes it: key, colon, value. *)
Definition dumps_item (kv : string * pyval) : result string :=
  kt ← encode_basestring_ascii (fst kv);
  vt ← dumps (snd kv);
  Ok (kt +:+ ":" +:+ vt).

(** ** Vocabulary of the pipeline properties *)

(** The values paired with the key [k] in a list of pairs, in the order
    of the list. *)
Fixpoint items_of {K V : Type} `{EqDecision K} (k : K) (kvs : list (K * V))
  : list V :=
  match kvs with
  | [] => []
  | (k', v) :: kvs' =>
      if decide (k' = k) then v :: items_of k kvs' else items_of k kvs'
  end.

(** [groups[key].append(value)] on a [defaultdict(list)]. *)
Definition append_item {K V : Type} `{Countable K}
  (groups : gmap K (list V)) (kv : K * V) : gmap K (list V) :=
  <[kv.1 := default [] (groups !! kv.1) ++ [kv.2]]> groups.

(** Key and coordinates of one star record (lines 19-26). *)
Definition star_entry (r : star_record) : result ((Z * string) * pyval) :=
  let '(ra, dec, magnitude, bv) := r in
  mag ← int_of_float magnitude;
  Ok ((mag, color_of bv), PList [PFloat (SFopp ra); PFloat dec]).

(** The same for the next item of the generator, which may have failed. *)
Definition next_star_entry (r : result star_record)
  : result ((Z * string) * pyval) :=
  rec ← r; star_entry rec.

Definition key_lt (k1 k2 : Z * string) : Prop := key_le k1 k2 /\ k1 <> k2.

Definition mp_key (mp : multipoint) : Z * string :=
  (mp_magnitude mp, mp_color mp).

(** A float that is a number and not an infinity. *)
Definition is_finite (f : float) : bool :=
  match f with
  | S754_zero _ | S754_finite _ _ _ => true
  | _ => false
  end.

Definition magnitude_of (r : star_record) : float :=
  let '(_, _, magnitude, _) := r in magnitude.

Definition is_lower (c : ascii) : bool :=
  let n := N_of_ascii c in ((97 <=? n) && (n <=? 122))%N.

Fixpoint no_lower (s : string) : bool :=
  match s with
  | String c s' => negb (is_lower c) && no_lower s'
  | EmptyString => true
  end.

Definition code_of (r : decision) : string := let '(_, _, _, con) := r in con.

(** Every character of the text satisfies [P]. *)
Fixpoint all_chars (P : ascii -> bool) (s : string) : bool :=
  match s with
  | String c s' => P c && all_chars P s'
  | EmptyString => true
  end.

(** The characters of the tokens of the serializer other than the
    characters of string data: digits, signs, brackets, separators, quotes,
    and the letters of the escapes and of the names of the floats that are
    not finite. *)
Definition token_chars : string :=
  String dquote "0123456789-+.e[]{},:'\bfnrtuabcdefNaInity".

Definition printable (c : ascii) : bool :=
  let n := N_of_ascii c in ((32 <=? n) && (n <=? 126))%N.

(** [strings_all Q v]: every byte of every string of the value, key or
    item, satisfies [Q]. *)
Fixpoint strings_all (Q : N -> bool) (v : pyval) : bool :=
  match v with
  | PInt _ | PFloat _ => true
  | PStr s => forallb Q (bytes_of s)
  | PList l | PTuple l => forallb (strings_all Q) l
  | PDict items =>
      forallb (fun kv => forallb Q (bytes_of (fst kv))
                         && strings_all Q (snd kv)) items
  end.

Definition not_space (b : N) : bool := negb (b =? 32)%N.


(** A byte that [escape_char] writes as it is must satisfy [P]. *)
Definition plain_ok (P : ascii -> bool) (n : N) : Prop :=
  (32 <= n <= 126)%N -> P (ascii_of_N n) = true.

(** The bytes allowed by [Q] that are written as they are satisfy [P]. *)
Definition plain_value (P : ascii -> bool) (Q : N -> bool) : Prop :=
  forall b, Q b = true -> plain_ok P b.

(** * Properties *)

(** ** The error monad *)

Lemma bind_Ok {A B : Type} (c : result A) (k : A -> result B) (b : B) :
  (x ← c; k x) = Ok b -> exists a, c = Ok a /\ k a = Ok b.
Proof. destruct c as [a|e]; simpl; [eauto | discriminate]. Qed.

Lemma bind_Raise {A B : Type} (c : result A) (k : A -> result B) (e : exn) :
  (x ← c; k x) = Raise e ->
  c = Raise e \/ exists a, c = Ok a /\ k a = Raise e.
Proof. destruct c as [a|e']; simpl; [eauto | intros [= ->]; auto]. Qed.

Ltac bind_ok H :=
  let a := fresh "a" in
  let Ha := fresh "Ha" in
  apply bind_Ok in H; destruct H as (a & Ha & H).

Lemma map_result_only {A B : Type} (f : A -> result B) (e0 : exn) :
  (forall x e, f x = Raise e -> e = e0) ->
  forall l e, map_result f l = Raise e -> e = e0.
Proof.
  intros Hf l. induction l as [|x l IH]; simpl; intros e H; [discriminate|].
  destruct (f x) as [y|e1] eqn:Hx; simpl in H.
  - destruct (map_result f l) as [ys|e2]; simpl in H; [discriminate|].
    injection H as <-. now apply IH.
  - injection H as <-. eauto.
Qed.

Lemma for_each_app {A S : Type} (body : S -> A -> result S) (l1 l2 : list A)
  (st : S) :
  for_each body (l1 ++ l2) st = (st' ← for_each body l1 st; for_each body l2 st').
Proof.
  revert st. induction l1 as [|x l1 IH]; intros st; simpl; [reflexivity|].
  destruct (body st x); simpl; auto.
Qed.

(** A loop whose body raises on some item does not return. *)
Lemma for_each_raises {A S : Type} (body : S -> A -> result S) (l : list A)
  (x : A) :
  In x l -> (forall st, exists e, body st x = Raise e) ->
  forall st, exists e, for_each body l st = Raise e.
Proof.
  intros Hin Hx. induction l as [|y l IH]; [destruct Hin|].
  intros st. simpl. destruct Hin as [->|Hin].
  - destruct (Hx st) as [e ->]. simpl. eauto.
  - destruct (body st y) as [st'|e]; simpl; eauto.
Qed.

(** ** Integers read from text *)

Lemma py_int_raise (s : string) (e : exn) : py_int s = Raise e -> e = ValueError.
Proof.
  unfold py_int.
  destruct (match lstrip s with
            | String "-" r => (true, r)
            | String "+" r => (false, r)
            | _ => (false, lstrip s)
            end) as [neg s2].
  destruct (take_digits 0 0 (lstrip s2)) as [[v n] rest].
  destruct n; [congruence|].
  destruct (all_space rest); congruence.
Qed.

Lemma int_triple_raise (t : string) (e : exn) :
  int_triple t = Raise e -> e = ValueError.
Proof.
  unfold int_triple. intros H. apply bind_Raise in H as [H|(l & _ & H)].
  - revert H. apply map_result_only. exact py_int_raise.
  - destruct l as [|a [|b [|c [|? ?]]]]; congruence.
Qed.

Lemma int_triple_fields (t hs ms ss : string) (h m s : Z) :
  split ":" t = [hs; ms; ss] ->
  py_int hs = Ok h -> py_int ms = Ok m -> py_int ss = Ok s ->
  int_triple t = Ok (h, m, s).
Proof.
  intros Ht Hh Hm Hs. unfold int_triple. rewrite Ht. simpl.
  rewrite Hh, Hm, Hs. reflexivity.
Qed.

Lemma float_of_int_raise (z : Z) (e : exn) :
  float_of_int z = Raise e -> e = OverflowError.
Proof. unfold float_of_int. destruct (round_Z z); congruence. Qed.

Lemma dec_arith_raise (d m : Z) (e : exn) :
  (m' ← math_copysign m d; int_add_float (60 * d) m') = Raise e ->
  e = OverflowError.
Proof.
  unfold math_copysign, int_add_float. intros H.
  destruct (float_of_int m) as [x|e1] eqn:Hm; simpl in H;
    [|injection H as <-; eauto using float_of_int_raise].
  destruct (float_of_int d) as [y|e2] eqn:Hd; simpl in H;
    [|injection H as <-; eauto using float_of_int_raise].
  destruct (float_of_int (60 * d)) as [w|e3] eqn:Hw; simpl in H;
    [discriminate|injection H as <-; eauto using float_of_int_raise].
Qed.

(** ** Right ascension *)

(** C6. The right ascension text [H:M:S] is converted to the seconds
    [(60*H + M)*60 + S]: for every text that splits at the colons into three
    integer fields, and so "01:02:03" gives 3723 and "00:00:00" gives 0. *)
Theorem ra_conversion :
  (forall (ra_text hs ms ss : string) (h m s : Z),
      split ":" ra_text = [hs; ms; ss] ->
      py_int hs = Ok h -> py_int ms = Ok m -> py_int ss = Ok s ->
      ra_of_text ra_text = Ok ((60 * h + m) * 60 + s))
  /\ ra_of_text "01:02:03" = Ok 3723
  /\ ra_of_text "00:00:00" = Ok 0.
Proof.
  split; [|split; reflexivity].
  intros ra_text hs ms ss h m s Ht Hh Hm Hs. unfold ra_of_text.
  rewrite (int_triple_fields _ _ _ _ _ _ _ Ht Hh Hm Hs). reflexivity.
Qed.

Lemma ra_conversion_witness : ra_of_text "12:34:56" = Ok 45296.
Proof.
  apply (proj1 ra_conversion "12:34:56" "12" "34" "56" 12 34 56);
    reflexivity.
Defined.

(** ** Exact binary64 arithmetic on integers below 2^53 *)

Lemma digits2_pos_size (p : positive) : digits2_pos p = Pos.size p.
Proof. induction p; simpl; congruence. Qed.

Lemma digits2_bounds (p : positive) :
  2 ^ (Zpos (digits2_pos p) - 1) <= Zpos p < 2 ^ Zpos (digits2_pos p).
Proof.
  rewrite digits2_pos_size. split.
  - pose proof (Pos.size_le p) as H.
    assert (E : Zpos (2 ^ Pos.size p) = 2 ^ Zpos (Pos.size p))
      by (rewrite Pos2Z.inj_pow; reflexivity).
    assert (H' : 2 ^ Zpos (Pos.size p) <= 2 * Zpos p).
    { rewrite <- E. change (2 * Zpos p) with (Zpos p~0). exact H. }
    replace (Zpos (Pos.size p)) with (Z.succ (Zpos (Pos.size p) - 1)) in H'
      by lia.
    rewrite Z.pow_succ_r in H' by lia. lia.
  - pose proof (Pos.size_gt p) as H.
    assert (E : Zpos (2 ^ Pos.size p) = 2 ^ Zpos (Pos.size p))
      by (rewrite Pos2Z.inj_pow; reflexivity).
    rewrite <- E. exact H.
Qed.

Lemma digits2_unique (p : positive) (d : Z) :
  2 ^ (d - 1) <= Zpos p < 2 ^ d -> Zpos (digits2_pos p) = d.
Proof.
  intros [Hl Hu]. pose proof (digits2_bounds p) as [Hl' Hu'].
  assert (Hd : 0 < d).
  { destruct (Z.lt_trichotomy d 0) as [H|[->|H]]; auto.
    - rewrite Z.pow_neg_r in Hu by assumption. lia.
    - simpl in Hu. lia. }
  destruct (Z.lt_trichotomy (Zpos (digits2_pos p)) d) as [H|[H|H]]; auto.
  - exfalso.
    assert (2 ^ Zpos (digits2_pos p) <= 2 ^ (d - 1))
      by (apply Z.pow_le_mono_r; lia). lia.
  - exfalso.
    assert (2 ^ d <= 2 ^ (Zpos (digits2_pos p) - 1))
      by (apply Z.pow_le_mono_r; lia). lia.
Qed.

Lemma shift_pos_value (a d : positive) :
  Zpos (Pos.iter xO a d) = Zpos a * 2 ^ Zpos d.
Proof.
  induction d as [|d IH] using Pos.peano_ind.
  - simpl. lia.
  - rewrite Pos.iter_succ, Pos2Z.inj_succ, Z.pow_succ_r by lia.
    rewrite Pos2Z.inj_xO, IH. lia.
Qed.

Lemma digits2_shift (a d : positive) :
  Zpos (digits2_pos (Pos.iter xO a d)) = Zpos (digits2_pos a) + Zpos d.
Proof.
  apply digits2_unique. rewrite shift_pos_value.
  pose proof (digits2_bounds a) as [Hl Hu].
  replace (Zpos (digits2_pos a) + Zpos d - 1)
    with ((Zpos (digits2_pos a) - 1) + Zpos d) by lia.
  rewrite !Z.pow_add_r by lia.
  assert (0 < 2 ^ Zpos d) by (apply Z.pow_pos_nonneg; lia).
  split; nia.
Qed.

Lemma iter_pos_iter {A : Type} (f : A -> A) (p : positive) (x : A) :
  SpecFloat.iter_pos f p x = Pos.iter f x p.
Proof.
  revert x. induction p as [p IH|p IH|]; intros x; simpl.
  - rewrite !IH, <- !Pos.iter_swap. reflexivity.
  - rewrite !IH. reflexivity.
  - reflexivity.
Qed.

(** Shifting out zeros loses nothing. *)
Lemma shr_shift (d a : positive) :
  SpecFloat.iter_pos shr_1 d
    {| shr_m := Zpos (Pos.iter xO a d); shr_r := false; shr_s := false |}
  = {| shr_m := Zpos a; shr_r := false; shr_s := false |}.
Proof.
  rewrite iter_pos_iter.
  induction d as [|d IH] using Pos.peano_ind.
  - reflexivity.
  - rewrite Pos.iter_succ_r. rewrite (Pos.iter_succ d _ xO a). simpl.
    exact IH.
Qed.

Lemma digits2_le_53 (n : positive) :
  Zpos n < 2 ^ 53 -> 1 <= Zpos (digits2_pos n) <= 53.
Proof.
  intros H. pose proof (digits2_bounds n) as [Hl _]. split; [lia|].
  destruct (Z_le_gt_dec (Zpos (digits2_pos n)) 53) as [|Hgt]; [assumption|].
  exfalso.
  assert (2 ^ 53 <= 2 ^ (Zpos (digits2_pos n) - 1))
    by (apply Z.pow_le_mono_r; lia).
  lia.
Qed.

Lemma fexp_53 (x : Z) : -1021 <= x -> fexp 53 1024 x = x - 53.
Proof. intros H. unfold fexp, emin. lia. Qed.

(** A mantissa of 53 digits with zeros appended is rounded to itself. *)
Lemma binary_round_aux_exact (s : bool) (m : positive) (e : Z) :
  Zpos (digits2_pos m) = 53 -> -1074 <= e <= 971 ->
  binary_round_aux 53 1024 s (Zpos m) e loc_Exact = S754_finite s m e.
Proof.
  intros Hd He. unfold binary_round_aux, shr_fexp.
  cbn [Zdigits2 shr_record_of_loc]. rewrite Hd, fexp_53 by lia.
  replace (53 + e - 53 - e) with 0 by lia.
  cbn [shr shr_m loc_of_shr_record round_nearest_even Zdigits2
       shr_record_of_loc].
  rewrite Hd, fexp_53 by lia.
  replace (53 + e - 53 - e) with 0 by lia.
  cbn [shr shr_m].
  destruct (Z.leb_spec e (1024 - 53)); [reflexivity | lia].
Qed.

Lemma binary_round_aux_shifted (s : bool) (m p : positive) (e : Z) :
  Zpos (digits2_pos m) = 53 -> -1074 <= e <= 971 ->
  binary_round_aux 53 1024 s (Zpos (Pos.iter xO m p)) (e - Zpos p) loc_Exact
  = S754_finite s m e.
Proof.
  intros Hd He. unfold binary_round_aux, shr_fexp.
  cbn [Zdigits2 shr_record_of_loc]. rewrite digits2_shift, Hd, fexp_53 by lia.
  replace (53 + Zpos p + (e - Zpos p) - 53 - (e - Zpos p)) with (Zpos p) by lia.
  cbn [shr]. rewrite shr_shift.
  cbn [shr_m loc_of_shr_record round_nearest_even Zdigits2 shr_record_of_loc].
  rewrite Hd, fexp_53 by lia.
  replace (53 + (e - Zpos p + Zpos p) - 53 - (e - Zpos p + Zpos p)) with 0
    by lia.
  cbn [shr shr_m].
  destruct (Z.leb_spec (e - Zpos p + Zpos p) (1024 - 53)); [|lia].
  f_equal. lia.
Qed.

Lemma digits2_scaled (q n : positive) (k : Z) :
  0 <= k -> Zpos q = Zpos n * 2 ^ k ->
  Zpos (digits2_pos q) = Zpos (digits2_pos n) + k.
Proof.
  intros Hk Hq. apply digits2_unique. rewrite Hq.
  pose proof (digits2_bounds n) as [Hl Hu].
  replace (Zpos (digits2_pos n) + k - 1)
    with ((Zpos (digits2_pos n) - 1) + k) by lia.
  rewrite !Z.pow_add_r by lia.
  assert (0 < 2 ^ k) by (apply Z.pow_pos_nonneg; lia).
  split; nia.
Qed.

Lemma normal_form_spec (s : bool) (n : positive) :
  Zpos n < 2 ^ 53 ->
  exists m,
    normal_form s n = S754_finite s m (Zpos (digits2_pos n) - 53)
    /\ Zpos m = Zpos n * 2 ^ (53 - Zpos (digits2_pos n))
    /\ Zpos (digits2_pos m) = 53.
Proof.
  intros Hn. pose proof (digits2_le_53 n Hn) as HD. unfold normal_form.
  destruct (53 - Zpos (digits2_pos n)) as [|d|d] eqn:E; [| |lia].
  - exists n. replace (Zpos (digits2_pos n) - 53) with 0 by lia.
    repeat split; [simpl; lia | lia].
  - exists (Pos.iter xO n d).
    replace (Zpos (digits2_pos n) - 53) with (- Zpos d) by lia.
    repeat split; [apply shift_pos_value | rewrite digits2_shift; lia].
Qed.

(** Rounding [n * 2^(-e)] at the exponent [e] gives the float of [n]. *)
Lemma binary_round_normal (s : bool) (q : positive) (e : Z) (n : positive) :
  Zpos n < 2 ^ 53 -> e <= 0 -> Zpos q = Zpos n * 2 ^ (- e) ->
  binary_round 53 1024 s q e = normal_form s n.
Proof.
  intros Hn He Hq.
  pose proof (digits2_le_53 n Hn) as HD.
  destruct (normal_form_spec s n Hn) as (m & -> & Hm & Hdm).
  pose proof (digits2_scaled q n (- e) ltac:(lia) Hq) as Hdq.
  unfold binary_round. rewrite Hdq, fexp_53 by lia.
  unfold shl_align.
  destruct (Zpos (digits2_pos n) + - e + e - 53 - e) as [|p|p] eqn:E.
  - rewrite binary_round_aux_exact by lia.
    assert (m = q) as ->; [|f_equal; lia].
    apply Pos2Z.inj. rewrite Hm, Hq.
    replace (53 - Zpos (digits2_pos n)) with (- e) by lia. reflexivity.
  - assert (Hqm : q = Pos.iter xO m p).
    { apply Pos2Z.inj. rewrite shift_pos_value, Hm, Hq, <- Z.mul_assoc.
      rewrite <- Z.pow_add_r by lia.
      replace (53 - Zpos (digits2_pos n) + Zpos p) with (- e) by lia.
      reflexivity. }
    rewrite Hqm.
    replace e with (Zpos (digits2_pos n) - 53 - Zpos p) by lia.
    apply binary_round_aux_shifted; lia.
  - assert (Hqm : Pos.iter xO q p = m).
    { apply Pos2Z.inj. rewrite shift_pos_value, Hm, Hq, <- Z.mul_assoc.
      rewrite <- Z.pow_add_r by lia.
      replace (- e + Zpos p) with (53 - Zpos (digits2_pos n)) by lia.
      reflexivity. }
    rewrite Hqm, binary_round_aux_exact by lia. f_equal. lia.
Qed.

Lemma round_Z_exact (z : Z) : Z.abs z < 2 ^ 53 -> round_Z z = float_of_Z z.
Proof.
  intros H. unfold round_Z, binary_normalize, prec, emax.
  destruct z as [|n|n]; [reflexivity| |];
    apply binary_round_normal; simpl in *; lia.
Qed.

Lemma shl_align_value (m : positive) (e e' : Z) :
  e' <= e -> Zpos (fst (shl_align m e e')) = Zpos m * 2 ^ (e - e').
Proof.
  intros H. unfold shl_align. destruct (e' - e) as [|p|p] eqn:E; simpl fst.
  - replace (e - e') with 0 by lia. simpl. lia.
  - lia.
  - rewrite shift_pos_value. replace (e - e') with (Zpos p) by lia.
    reflexivity.
Qed.

Lemma cond_Zopp_mul (s : bool) (x y : Z) :
  cond_Zopp s (x * y) = cond_Zopp s x * y.
Proof. destruct s; simpl; lia. Qed.

(** The float of a non-zero integer below 2^53: sign, mantissa and
    exponent. *)
Lemma float_of_Z_finite (z : Z) :
  Z.abs z < 2 ^ 53 -> z <> 0 ->
  exists m e,
    float_of_Z z = S754_finite (z <? 0) m e
    /\ -52 <= e <= 0
    /\ cond_Zopp (z <? 0) (Zpos m) = z * 2 ^ (- e).
Proof.
  intros Hz Hnz. destruct z as [|n|n]; [congruence| |]; simpl float_of_Z.
  - destruct (normal_form_spec false n) as (m & -> & Hm & _); [simpl in Hz; lia|].
    pose proof (digits2_le_53 n ltac:(simpl in Hz; lia)).
    exists m, (Zpos (digits2_pos n) - 53). repeat split; try lia.
    simpl. rewrite Hm. f_equal. f_equal. lia.
  - destruct (normal_form_spec true n) as (m & -> & Hm & _); [simpl in Hz; lia|].
    pose proof (digits2_le_53 n ltac:(simpl in Hz; lia)).
    exists m, (Zpos (digits2_pos n) - 53). repeat split; try lia.
    change (Zneg n <? 0) with true. cbn [cond_Zopp].
    rewrite Hm.
    replace (- (Zpos (digits2_pos n) - 53)) with (53 - Zpos (digits2_pos n))
      by lia.
    lia.
Qed.

Lemma binary_normalize_exact (x : Z) (e : Z) (z : Z) :
  Z.abs z < 2 ^ 53 -> e <= 0 -> x = z * 2 ^ (- e) ->
  binary_normalize 53 1024 x e false = float_of_Z z.
Proof.
  intros Hz He Hx.
  assert (Hp : 0 < 2 ^ (- e)) by (apply Z.pow_pos_nonneg; lia).
  unfold binary_normalize. destruct x as [|q|q].
  - assert (z = 0) as -> by nia. reflexivity.
  - destruct z as [|n|n]; [lia| |nia]. simpl float_of_Z.
    apply binary_round_normal; [simpl in Hz; lia | assumption | assumption].
  - destruct z as [|n|n]; [lia|nia|]. simpl float_of_Z.
    apply binary_round_normal; [simpl in Hz; lia | assumption | ].
    assert (Zneg q = - Zpos q) by reflexivity.
    assert (Zneg n = - Zpos n) by reflexivity. nia.
Qed.

(** Addition of the floats of two integers is exact while the integers
    and their sum stay below 2^53. *)
Lemma SFadd_exact (a b : Z) :
  Z.abs a < 2 ^ 53 -> Z.abs b < 2 ^ 53 -> Z.abs (a + b) < 2 ^ 53 ->
  SFadd 53 1024 (float_of_Z a) (float_of_Z b) = float_of_Z (a + b).
Proof.
  intros Ha Hb Hab.
  destruct (Z.eq_dec a 0) as [->|Hna].
  { destruct (Z.eq_dec b 0) as [->|Hnb]; [reflexivity|].
    rewrite Z.add_0_l.
    destruct (float_of_Z_finite b Hb Hnb) as (m & e & -> & _). reflexivity. }
  destruct (Z.eq_dec b 0) as [->|Hnb].
  { rewrite Z.add_0_r.
    destruct (float_of_Z_finite a Ha Hna) as (m & e & E & _).
    rewrite E. reflexivity. }
  destruct (float_of_Z_finite a Ha Hna) as (ma & ea & -> & Hea & Hma).
  destruct (float_of_Z_finite b Hb Hnb) as (mb & eb & -> & Heb & Hmb).
  cbn [SFadd].
  apply binary_normalize_exact; [assumption | lia |].
  rewrite !shl_align_value by lia.
  rewrite !cond_Zopp_mul, Hma, Hmb, <- !Z.mul_assoc, <- !Z.pow_add_r by lia.
  replace (- ea + (ea - Z.min ea eb)) with (- Z.min ea eb) by lia.
  replace (- eb + (eb - Z.min ea eb)) with (- Z.min ea eb) by lia.
  lia.
Qed.

Lemma float_of_int_exact (z : Z) :
  Z.abs z < 2 ^ 53 -> float_of_int z = Ok (float_of_Z z).
Proof.
  intros Hz. unfold float_of_int. rewrite round_Z_exact by assumption.
  destruct (Z.eq_dec z 0) as [->|Hnz]; [reflexivity|].
  destruct (float_of_Z_finite z Hz Hnz) as (m & e & -> & _). reflexivity.
Qed.

Lemma normal_form_sign (s s' : bool) (n : positive) :
  match normal_form s n with
  | S754_finite _ m e => S754_finite s' m e
  | f => f
  end = normal_form s' n.
Proof. unfold normal_form. destruct (53 - Zpos (digits2_pos n)); reflexivity. Qed.

Lemma normal_form_sign_bit (s : bool) (n : positive) :
  sign_bit (normal_form s n) = s.
Proof. unfold normal_form. destruct (53 - Zpos (digits2_pos n)); reflexivity. Qed.

Lemma SFabs_normal_form (s : bool) (n : positive) :
  SFabs (normal_form s n) = normal_form false n.
Proof. unfold normal_form. destruct (53 - Zpos (digits2_pos n)); reflexivity. Qed.

Lemma SFopp_normal_form (s : bool) (n : positive) :
  SFopp (normal_form s n) = normal_form (negb s) n.
Proof. unfold normal_form. destruct (53 - Zpos (digits2_pos n)); reflexivity. Qed.

(** [copysign] on the floats of two integers. *)
Lemma copysign_exact (m d : Z) :
  copysign (float_of_Z m) (float_of_Z d)
  = if d <? 0 then
      if m =? 0 then S754_zero true else float_of_Z (- Z.abs m)
    else float_of_Z (Z.abs m).
Proof.
  unfold copysign.
  assert (Hs : sign_bit (float_of_Z d) = (d <? 0)).
  { destruct d; simpl; auto using normal_form_sign_bit. }
  rewrite Hs. destruct (d <? 0);
    destruct m as [|n|n]; simpl;
    rewrite ?SFabs_normal_form, ?SFopp_normal_form; reflexivity.
Qed.

Lemma SFadd_negative_zero (a : Z) :
  Z.abs a < 2 ^ 53 -> a <> 0 ->
  SFadd 53 1024 (float_of_Z a) (S754_zero true) = float_of_Z a.
Proof.
  intros Ha Hna. destruct (float_of_Z_finite a Ha Hna) as (m & e & -> & _).
  reflexivity.
Qed.


(** The declination arithmetic of lines 49-50 is exact below 2^53. *)
Lemma dec_minutes_exact (d m : Z) :
  Z.abs (60 * d) + Z.abs m < 2 ^ 53 ->
  (m' ← math_copysign m d; int_add_float (60 * d) m')
  = Ok (float_of_Z (60 * d + signed_minutes d m)).
Proof.
  intros H.
  assert (H53 : 2 ^ 53 = 9007199254740992) by reflexivity.
  unfold math_copysign, int_add_float.
  rewrite !float_of_int_exact by lia. simpl.
  rewrite copysign_exact. unfold signed_minutes, prec, emax.
  destruct (Z.ltb_spec d 0).
  - destruct (Z.eqb_spec m 0) as [->|Hm].
    + rewrite SFadd_negative_zero by lia. do 2 f_equal. simpl. lia.
    + rewrite SFadd_exact by lia. reflexivity.
  - rewrite SFadd_exact by lia. reflexivity.
Qed.

(** ** Declination *)

Lemma dec_of_text_assertion (dec_text : string) :
  dec_of_text dec_text = Raise AssertionError <->
  exists d m s, int_triple dec_text = Ok (d, m, s) /\ s <> 0.
Proof.
  unfold dec_of_text. split.
  - intros H. destruct (int_triple dec_text) as [[[d m] s]|e] eqn:Ht.
    + simpl in H. exists d, m, s. split; [reflexivity|].
      destruct (Z.eqb_spec s 0) as [->|Hs]; [|assumption].
      apply dec_arith_raise in H. discriminate.
    + simpl in H. injection H as ->.
      apply int_triple_raise in Ht. discriminate.
  - intros (d & m & s & -> & Hs). simpl.
    destruct (Z.eqb_spec s 0); [contradiction|reflexivity].
Qed.

Lemma vertex_of_line_assertion (line vertex_key ra_text dec_text con cons' : string)
  (ra d m s : Z) :
  split_max " " 4 line = [vertex_key; ra_text; dec_text; con; cons'] ->
  ra_of_text ra_text = Ok ra ->
  int_triple dec_text = Ok (d, m, s) -> s <> 0 ->
  vertex_of_line line = Raise AssertionError.
Proof.
  intros Hl Hra Hd Hs. unfold vertex_of_line. rewrite Hl, Hra. simpl.
  assert (H : dec_of_text dec_text = Raise AssertionError)
    by (apply dec_of_text_assertion; eauto).
  rewrite H. reflexivity.
Qed.

Lemma dec_seconds_raise (line vertex_key ra_text dec_text con cons' : string)
  (d m s : Z) :
  split_max " " 4 line = [vertex_key; ra_text; dec_text; con; cons'] ->
  int_triple dec_text = Ok (d, m, s) -> s <> 0 ->
  exists e, vertex_of_line line = Raise e.
Proof.
  intros Hl Hd Hs. unfold vertex_of_line. rewrite Hl.
  destruct (ra_of_text ra_text) as [ra|e]; simpl; [|eauto].
  assert (H : dec_of_text dec_text = Raise AssertionError)
    by (apply dec_of_text_assertion; eauto).
  rewrite H. simpl. eauto.
Qed.

(** C7. The declination conversion stops at [assert s == 0] exactly when
    the text has three integer fields and the seconds are not zero (as for
    "10:20:05"); the failure is Python's [AssertionError], and
    [build_boundary_data] then returns no boundary data: the exception of the
    first such line is the outcome, and a file with such a line anywhere is
    never turned into output. *)
Theorem dec_seconds_must_be_zero :
  (forall dec_text : string,
      dec_of_text dec_text = Raise AssertionError <->
      exists d m s, int_triple dec_text = Ok (d, m, s) /\ s <> 0)
  /\ dec_of_text "10:20:05" = Raise AssertionError
  /\ (forall (before after : list string) (boundaries : boundaries_t)
        (line vertex_key ra_text dec_text con cons' : string) (ra d m s : Z),
        for_each boundary_line before ∅ = Ok boundaries ->
        split_max " " 4 line = [vertex_key; ra_text; dec_text; con; cons'] ->
        ra_of_text ra_text = Ok ra ->
        int_triple dec_text = Ok (d, m, s) -> s <> 0 ->
        build_boundary_data (before ++ line :: after) = Raise AssertionError)
  /\ (forall (lines : list string)
        (line vertex_key ra_text dec_text con cons' : string) (d m s : Z),
        In line lines ->
        split_max " " 4 line = [vertex_key; ra_text; dec_text; con; cons'] ->
        int_triple dec_text = Ok (d, m, s) -> s <> 0 ->
        exists e, build_boundary_data lines = Raise e).
Proof.
  split; [exact dec_of_text_assertion|].
  split; [reflexivity|]. split.
  - intros before after boundaries line vk ra_text dec_text con cons' ra d m s
      Hb Hl Hra Hd Hs.
    assert (Hbl : boundary_line boundaries line = Raise AssertionError).
    { unfold boundary_line.
      rewrite (vertex_of_line_assertion _ _ _ _ _ _ _ _ _ _ Hl Hra Hd Hs).
      reflexivity. }
    unfold build_boundary_data. rewrite for_each_app, Hb. simpl.
    rewrite Hbl. reflexivity.
  - intros lines line vk ra_text dec_text con cons' d m s Hin Hl Hd Hs.
    unfold build_boundary_data.
    destruct (for_each_raises boundary_line lines line Hin) with (st := (∅ : boundaries_t))
      as [e He].
    + intros st. unfold boundary_line.
      destruct (dec_seconds_raise _ _ _ _ _ _ _ _ _ Hl Hd Hs) as [e ->].
      simpl. eauto.
    + rewrite He. simpl. eauto.
Qed.

Lemma dec_seconds_must_be_zero_witness :
  build_boundary_data
    ["1 01:02:03 05:30:00 CEP CEP "; "2 01:02:04 10:20:05 CEP CEP "]
  = Raise AssertionError.
Proof.
  apply (proj1 (proj2 (proj2 dec_seconds_must_be_zero))
           ["1 01:02:03 05:30:00 CEP CEP "] []
           {[ "CEP" := [PList [PInt 3723;
                               PFloat (S754_finite false 5805421394657280 (-44))]] ]}
           "2 01:02:04 10:20:05 CEP CEP " "2" "01:02:04" "10:20:05" "CEP" "CEP "
           3724 10 20 5); try reflexivity.
  discriminate.
Defined.

(** C2, as the code has it. The degrees field "-0" is read by [int] as the
    integer 0, which carries no sign; [copysign] then leaves the minutes
    positive, and the declination "-0:30:00" comes out as +30 minutes of arc,
    not as -30. *)
Theorem dec_negative_zero_degrees :
  py_int "-0" = Ok 0
  /\ math_copysign 30 0 = Ok (S754_finite false 8444249301319680 (-48))
  /\ dec_of_text "-0:30:00" = Ok (S754_finite false 8444249301319680 (-48))
  /\ float_is_Z (S754_finite false 8444249301319680 (-48)) 30 = true.
Proof. repeat split; vm_compute; reflexivity. Qed.



(** ** Vertices of the boundary *)

(** C1 fails as stated: the line below is accepted, its right ascension
    is the negative integer -3600 and its declination is the float 330.0,
    so the vertex is not a pair of integers with a non-negative first
    one. *)
Lemma boundary_vertex_counterexample :
  vertex_of_line "1 -1:00:00 05:30:00 CEP CEP"
  = Ok ("CEP", PList [PInt (-3600);
                      PFloat (S754_finite false 5805421394657280 (-44))])
  /\ ~ (exists ra dec : Z,
          PList [PInt (-3600);
                 PFloat (S754_finite false 5805421394657280 (-44))]
          = PList [PInt ra; PInt dec] /\ 0 <= ra).
Proof.
  split; [vm_compute; reflexivity|].
  intros (ra & dec & H & _). discriminate H.
Qed.

(** C1, amended. Every accepted line gives a vertex of two components
    whose first one is the integer [(60*H + M)*60 + S] of the fields of the
    right ascension; it is not negative when none of the fields is. *)
Theorem boundary_vertex_ra (line con : string) (v : pyval) :
  vertex_of_line line = Ok (con, v) ->
  exists (vertex_key ra_text dec_text cons' : string) (h m s : Z) (dec : pyval),
    split_max " " 4 line = [vertex_key; ra_text; dec_text; con; cons'] /\
    int_triple ra_text = Ok (h, m, s) /\
    v = PList [PInt ((60 * h + m) * 60 + s); dec] /\
    (0 <= h -> 0 <= m -> 0 <= s -> 0 <= (60 * h + m) * 60 + s).
Proof.
  unfold vertex_of_line. intros H.
  destruct (split_max " " 4 line) as [|vk [|ra_text [|dec_text [|con0 [|cons' [|? ?]]]]]];
    try discriminate.
  apply bind_Ok in H as (ra & Hra & H).
  apply bind_Ok in H as (dec & Hdec & H).
  injection H as <- <-.
  unfold ra_of_text in Hra. apply bind_Ok in Hra as ([[h m] s] & Ht & Hra).
  injection Hra as <-.
  exists vk, ra_text, dec_text, cons', h, m, s, (PFloat dec).
  repeat split; auto. lia.
Qed.

Lemma boundary_vertex_ra_witness :
  exists (vertex_key ra_text dec_text cons' : string) (h m s : Z) (dec : pyval),
    split_max " " 4 "1 01:02:03 05:30:00 CEP CEP"
      = [vertex_key; ra_text; dec_text; "CEP"; cons'] /\
    int_triple ra_text = Ok (h, m, s) /\
    PList [PInt 3723; PFloat (S754_finite false 5805421394657280 (-44))]
      = PList [PInt ((60 * h + m) * 60 + s); dec] /\
    (0 <= h -> 0 <= m -> 0 <= s -> 0 <= (60 * h + m) * 60 + s).
Proof.
  apply (boundary_vertex_ra "1 01:02:03 05:30:00 CEP CEP" "CEP").
  vm_compute. reflexivity.
Defined.

(** ** Comparisons of floats *)

Lemma SFcompare_antisym (x y : float) :
  SFcompare y x = option_map CompOpp (SFcompare x y).
Proof.
  destruct x as [sx|sx| |sx mx ex], y as [sy|sy| |sy my ey]; simpl;
    try reflexivity;
    try (destruct sx; reflexivity); try (destruct sy; reflexivity);
    try (destruct sx, sy; reflexivity).
  assert (HP : Pos.compare_cont Eq my mx = CompOpp (Pos.compare_cont Eq mx my))
    by (rewrite Pos.compare_cont_antisym; reflexivity).
  rewrite (Z.compare_antisym ex ey), HP.
  destruct sx, sy; simpl; try reflexivity;
    destruct (ex ?= ey); simpl; try reflexivity;
    destruct (Pos.compare_cont Eq mx my); reflexivity.
Qed.

(** [not (x < c)] is [c <= x] unless [x] is not a number. *)
Lemma float_lt_false (x c : float) :
  c <> S754_nan ->
  float_lt x c = false <-> float_le c x = true \/ x = S754_nan.
Proof.
  intros Hc. unfold float_lt, float_le, SFltb, SFleb.
  rewrite (SFcompare_antisym x c).
  destruct (SFcompare x c) as [[| |]|] eqn:Hcmp; simpl.
  - split; auto.
  - split; [discriminate|]. intros [H| ->]; [discriminate|].
    simpl in Hcmp. discriminate.
  - split; auto.
  - split; [|reflexivity]. intros _. right.
    destruct x, c; simpl in Hcmp; try discriminate; congruence.
Qed.

Lemma float_lt_not_nan (x c : float) : float_lt x c = true -> x <> S754_nan.
Proof. intros H ->. discriminate H. Qed.

(** What is below zero is below 0.59. *)
Lemma float_lt_0_lt_059 (x : float) :
  float_lt x lit_0_00 = true -> float_lt x lit_0_59 = true.
Proof. destruct x as [s|[|]| |[|] m e]; simpl; auto; discriminate. Qed.

(** ** Colours *)

(** C4. The colour is a function of the colour index with the three
    values blue, white and red: blue exactly below 0.00, white exactly from
    0.00 (included) to below 0.59, red exactly from 0.59 (included) upwards,
    and also for an index that is not a number; 0.00 is white and 0.59 is
    red. *)
Theorem color_classification (bv : float) :
  (color_of bv = "blue" \/ color_of bv = "white" \/ color_of bv = "red")
  /\ (color_of bv = "blue" <-> float_lt bv lit_0_00 = true)
  /\ (color_of bv = "white" <->
      float_le lit_0_00 bv = true /\ float_lt bv lit_0_59 = true)
  /\ (color_of bv = "red" <-> float_le lit_0_59 bv = true \/ bv = S754_nan)
  /\ color_of lit_0_00 = "white"
  /\ color_of lit_0_59 = "red".
Proof.
  assert (H0 : lit_0_00 <> S754_nan) by discriminate.
  assert (H59 : lit_0_59 <> S754_nan) by discriminate.
  pose proof (float_lt_false bv lit_0_00 H0) as L0.
  pose proof (float_lt_false bv lit_0_59 H59) as L59.
  pose proof (float_lt_0_lt_059 bv) as L.
  pose proof (float_lt_not_nan bv lit_0_59) as N59.
  unfold color_of.
  destruct (float_lt bv lit_0_00) eqn:E0;
    [rewrite (L eq_refl) in *|destruct (float_lt bv lit_0_59) eqn:E59].
  - split; [auto|]. split; [tauto|].
    split; [|split; [|split; reflexivity]].
    + split; [discriminate|]. intros [Hle _].
      destruct L0 as [_ L0]. specialize (L0 (or_introl Hle)). discriminate.
    + split; [discriminate|]. intros Hred.
      destruct L59 as [_ L59]. specialize (L59 Hred). discriminate.
  - split; [auto|]. split; [split; discriminate|].
    split; [|split; [|split; reflexivity]].
    + split; [|reflexivity]. intros _. split; [|reflexivity].
      destruct L0 as [L0 _]. destruct (L0 eq_refl) as [Hle|Hnan]; [assumption|].
      exfalso. exact (N59 eq_refl Hnan).
    + split; [discriminate|]. intros Hred.
      destruct L59 as [_ L59]. specialize (L59 Hred). discriminate.
  - split; [auto|]. split; [split; discriminate|].
    split; [|split; [|split; reflexivity]].
    + split; [discriminate|]. intros [_ Hlt]. discriminate.
    + split; [|reflexivity]. intros _. apply L59. reflexivity.
Qed.

(** ** Grouping of the stars *)

(** C8. A catalogue of the one record with magnitude 3.2, right ascension
    10.0, declination 20.0 and colour index -0.1 is grouped into exactly one
    group, under the key (3, blue), whose list of coordinates is
    [[-10.0, 20.0]]; the same holds from the catalogue line through
    [parse_hipparcos] to the one entry of [build_star_data]. *)
Theorem one_star_grouped :
  let ra := float_literal "10.0" in
  let dec := float_literal "20.0" in
  let magnitude := float_literal "3.2" in
  let bv := float_literal "-0.1" in
  let coordinates := [PList [PFloat (float_literal "-10.0"); PFloat dec]] in
  group_stars_by_magnitude [Ok (ra, dec, magnitude, bv)]
    = Ok {[ (3, "blue") := coordinates ]}
  /\ parse_hipparcos [star_line] = [Ok (ra, dec, magnitude, bv)]
  /\ build_star_data [star_line] = Ok [MultiPoint coordinates 3 "blue"].
Proof. repeat split; vm_compute; reflexivity. Qed.

(** ** Decision table *)

Lemma decision_line_of (line : string) (r : decision) :
  decision_of line r -> decision_line line = Ok r.
Proof.
  intros (ra0 & ra1 & dec & con & a & b & c & Hw & Ha & Hb & Hc & ->).
  unfold decision_line. rewrite Hw, Ha, Hb, Hc. reflexivity.
Qed.



(** ** The serializer *)

(** ** Texts and their characters *)

Lemma app_String (c : ascii) (a b : string) :
  String c a +:+ b = String c (a +:+ b).
Proof. reflexivity. Qed.

Lemma app_empty (b : string) : EmptyString +:+ b = b.
Proof. reflexivity. Qed.

Lemma app_assoc_string (a b c : string) : (a +:+ b) +:+ c = a +:+ (b +:+ c).
Proof.
  induction a as [|x a IH]; [reflexivity|].
  rewrite !app_String, IH. reflexivity.
Qed.


Lemma map_string_app (f : ascii -> ascii) (a b : string) :
  map_string f (a +:+ b) = map_string f a +:+ map_string f b.
Proof.
  induction a as [|x a IH]; [reflexivity|].
  rewrite app_String. simpl. rewrite IH. reflexivity.
Qed.

Lemma count_replaced (a b : ascii) (t : string) :
  a <> b -> count_char a (replace a b t) = O.
Proof.
  intros Hab. induction t as [|c t IH]; [reflexivity|].
  unfold replace in *. simpl. rewrite IH.
  destruct (Ascii.eqb_spec c a) as [->|Hc].
  - destruct (Ascii.eqb_spec b a); [congruence | reflexivity].
  - destruct (Ascii.eqb_spec c a); [congruence | reflexivity].
Qed.

Lemma count_replacement (a b : ascii) (t : string) :
  a <> b ->
  count_char b (replace a b t) = (count_char b t + count_char a t)%nat.
Proof.
  intros Hab. induction t as [|c t IH]; [reflexivity|].
  unfold replace in *. simpl. rewrite IH.
  destruct (Ascii.eqb_spec c a) as [->|Hc].
  - rewrite Ascii.eqb_refl. destruct (Ascii.eqb_spec a b); [congruence|]. lia.
  - destruct (Ascii.eqb_spec c b); lia.
Qed.


(** ** No single quote in the text of a number *)










(** ** No single quote in an escaped string *)






Ltac case_if :=
  match goal with
  | H : context [if ?b then _ else _] |- _ => destruct b eqn:?
  end.




(** ** The text of [dumps] *)

Lemma dumps_PList (l : list pyval) :
  dumps (PList l)
  = (ts ← map_result dumps l; Ok ("[" +:+ join "," ts +:+ "]")).
Proof.
  simpl. f_equal. induction l as [|x l IH]; simpl; [reflexivity|].
  rewrite IH. reflexivity.
Qed.

Lemma dumps_PTuple (l : list pyval) :
  dumps (PTuple l)
  = (ts ← map_result dumps l; Ok ("[" +:+ join "," ts +:+ "]")).
Proof.
  simpl. f_equal. induction l as [|x l IH]; simpl; [reflexivity|].
  rewrite IH. reflexivity.
Qed.

Lemma dumps_PDict (items : list (string * pyval)) :
  dumps (PDict items)
  = (ts ← map_result dumps_item items; Ok ("{" +:+ join "," ts +:+ "}")).
Proof.
  simpl. f_equal. induction items as [|[k v] l IH]; simpl; [reflexivity|].
  rewrite IH. unfold dumps_item. simpl.
  destruct (encode_basestring_ascii k); simpl; [|reflexivity].
  destruct (dumps v); reflexivity.
Qed.


Lemma map_result_Forall {A B : Type} (f : A -> result B) (P : A -> Prop)
  (Q : B -> Prop) :
  forall l ys,
    Forall (fun x => P x -> forall y, f x = Ok y -> Q y) l ->
    Forall P l -> map_result f l = Ok ys -> Forall Q ys.
Proof.
  induction l as [|x l IH]; intros ys Hf HP H.
  - injection H as <-. constructor.
  - simpl in H. apply bind_Ok in H as (y & Hy & H).
    apply bind_Ok in H as (ys' & Hys & [= <-]).
    inversion Hf; subst. inversion HP; subst.
    constructor; eauto.
Qed.


Lemma decode_utf8_ascii (bs : list N) :
  Forall (fun b => (b < 128)%N) bs -> decode_utf8 bs = Ok bs.
Proof.
  induction 1 as [|b bs Hb _ IH]; [reflexivity|].
  cbn [decode_utf8]. apply N.ltb_lt in Hb. rewrite Hb, IH. reflexivity.
Qed.

Lemma bytes_of_app (a b : string) :
  bytes_of (a +:+ b) = bytes_of a ++ bytes_of b.
Proof.
  induction a as [|c a IH]; [reflexivity|].
  rewrite app_String. simpl. rewrite IH. reflexivity.
Qed.

Lemma concat_strings_app (l1 l2 : list string) :
  concat_strings (l1 ++ l2) = concat_strings l1 +:+ concat_strings l2.
Proof.
  induction l1 as [|x l1 IH]; [reflexivity|].
  simpl. rewrite IH, app_assoc_string. reflexivity.
Qed.

Lemma escape_text_app (a b : string) :
  escape_text (a +:+ b) = escape_text a +:+ escape_text b.
Proof.
  unfold escape_text. rewrite bytes_of_app, map_app, concat_strings_app.
  reflexivity.
Qed.

Lemma is_ascii_app (a b : string) :
  is_ascii a -> is_ascii b -> is_ascii (a +:+ b).
Proof.
  unfold is_ascii. rewrite bytes_of_app. intros Ha Hb.
  apply Forall_app. split; assumption.
Qed.

Lemma jsonify_ascii_string (s : string) :
  is_ascii s ->
  jsonify (PStr s)
  = Ok (String squote (replace dquote squote (escape_text s)
                         +:+ String squote EmptyString)).
Proof.
  intros Hs. unfold jsonify. simpl. unfold encode_basestring_ascii.
  rewrite (decode_utf8_ascii _ Hs). simpl.
  unfold replace. cbn [map_string]. rewrite map_string_app. reflexivity.
Qed.

(** C10. The substitution of [jsonify] runs over the whole text of
    [json.dumps]: the output holds no double quote at all, and as many
    single quotes as the text had quotes of both kinds. A double quote inside
    string data, which [json.dumps] writes as backslash and double quote, is
    therefore written as backslash and single quote: the data does not
    appear in the output as it was. *)
Theorem quote_substitution_whole_text :
  (forall (data : pyval) (t : string),
      jsonify data = Ok t ->
      exists t0, dumps data = Ok t0 /\
                 t = replace dquote squote t0 /\
                 count_char dquote t = O /\
                 count_char squote t
                 = (count_char squote t0 + count_char dquote t0)%nat)
  /\ (forall a b : string,
        is_ascii a -> is_ascii b ->
        jsonify (PStr (a +:+ String dquote b))
        = Ok (String squote
                (replace dquote squote (escape_text a)
                 +:+ String backslash
                       (String squote
                          (replace dquote squote (escape_text b)
                           +:+ String squote EmptyString)))))
  /\ jsonify (PStr (String "a" (String dquote "b"))) = Ok "'a\'b'"
  /\ jsonify (PDict [(String dquote "k", PList [PStr (String dquote "")])])
     = Ok "{'\'k':['\'']}".
Proof.
  split; [|split; [|split; vm_compute; reflexivity]].
  - intros data t H. unfold jsonify in H.
    apply bind_Ok in H as (t0 & Ht0 & [= <-]).
    exists t0. repeat split; auto.
    + apply count_replaced. discriminate.
    + apply count_replacement. discriminate.
  - intros a b Ha Hb.
    rewrite jsonify_ascii_string.
    + rewrite escape_text_app. unfold replace.
      rewrite map_string_app, app_assoc_string. reflexivity.
    + apply is_ascii_app; [assumption|].
      unfold is_ascii in *. simpl. constructor; [reflexivity | assumption].
Qed.

Lemma quote_substitution_whole_text_witness :
  jsonify (PStr ("say " +:+ String dquote "hi"))
  = Ok (String squote
          (replace dquote squote (escape_text "say ")
           +:+ String backslash
                 (String squote
                    (replace dquote squote (escape_text "hi")
                     +:+ String squote EmptyString)))).
Proof.
  apply (proj1 (proj2 quote_substitution_whole_text) "say " "hi");
    unfold is_ascii; simpl; repeat constructor.
Defined.




(** * Properties of the whole pipeline *)

(** ** Boundaries as rings *)

Lemma items_of_app {K V : Type} `{EqDecision K} (k : K) (l1 l2 : list (K * V)) :
  items_of k (l1 ++ l2) = items_of k l1 ++ items_of k l2.
Proof.
  induction l1 as [|[k' v] l1 IH]; [reflexivity|].
  simpl. destruct (decide (k' = k)); simpl; rewrite IH; reflexivity.
Qed.

(** Appending items one by one to the lists of a dict collects, under
    every key, the items of that key in their order. *)
Lemma foldl_append_item {K V : Type} `{Countable K}
  (kvs : list (K * V)) (groups : gmap K (list V)) (k : K) :
  foldl append_item groups kvs !! k
  = match items_of k kvs with
    | [] => groups !! k
    | l => Some (default [] (groups !! k) ++ l)
    end.
Proof.
  revert groups. induction kvs as [|[k' v] kvs IH]; intros groups;
    [reflexivity|].
  simpl. rewrite IH. unfold append_item. simpl.
  destruct (decide (k' = k)) as [->|Hne].
  - rewrite lookup_insert_eq. simpl.
    destruct (items_of k kvs); [reflexivity|].
    rewrite <- app_assoc. reflexivity.
  - rewrite lookup_insert_ne by assumption. reflexivity.
Qed.

Lemma for_each_boundary_line (lines : list string) :
  forall (boundaries : boundaries_t),
    for_each boundary_line lines boundaries
    = (kvs ← map_result vertex_of_line lines;
       Ok (foldl append_item boundaries kvs)).
Proof.
  induction lines as [|line lines IH]; intros boundaries; [reflexivity|].
  simpl.
  assert (E : boundary_line boundaries line
              = match vertex_of_line line with
                | Ok kv => Ok (append_item boundaries kv)
                | Raise e => Raise e
                end).
  { unfold boundary_line.
    destruct (vertex_of_line line) as [[con vertex]|e]; reflexivity. }
  rewrite E.
  destruct (vertex_of_line line) as [kv|e]; simpl; [|reflexivity].
  rewrite IH. destruct (map_result vertex_of_line lines); reflexivity.
Qed.

(** Sorting the items before building the result dict changes nothing. *)
Lemma sorted_items_to_map {K V W : Type} `{Countable K} (le : relation K)
  `{!RelDecision le} (f : V -> W) (m : gmap K V) :
  (list_to_map (map (fun '(k, v) => (k, f v))
                  (sorted_items le (map_to_list m))) : gmap K W)
  = f <$> m.
Proof.
  assert (E : map (fun '(k, v) => (k, f v)) (sorted_items le (map_to_list m))
              = prod_map id f <$> sorted_items le (map_to_list m)).
  { apply map_ext. intros [k v]. reflexivity. }
  rewrite E, list_to_map_fmap. f_equal.
  rewrite <- (list_to_map_to_list m) at 2.
  apply list_to_map_proper.
  - unfold sorted_items. rewrite merge_sort_Permutation.
    apply NoDup_fst_map_to_list.
  - unfold sorted_items. apply merge_sort_Permutation.
Qed.

(** X1. [build_boundary_data] fails exactly where a line fails, with the
    failure of the first such line; otherwise its dict has one entry for
    each constellation named on some line and no other entry, and the entry
    is a polygon of one ring: the vertices of the lines of that
    constellation, in the order of the lines. *)
Theorem boundary_rings (lines : list string) :
  match map_result vertex_of_line lines with
  | Raise e => build_boundary_data lines = Raise e
  | Ok kvs =>
      exists m,
        build_boundary_data lines = Ok m /\
        forall con,
          m !! con = match items_of con kvs with
                     | [] => None
                     | ring => Some (Polygon [ring])
                     end
  end.
Proof.
  unfold build_boundary_data. rewrite for_each_boundary_line.
  destruct (map_result vertex_of_line lines) as [kvs|e]; [|reflexivity].
  simpl. eexists. split; [reflexivity|]. intros con.
  unfold boundaries_t.
  rewrite (sorted_items_to_map String.le (fun b => Polygon [b])).
  rewrite lookup_fmap, foldl_append_item, lookup_empty.
  destruct (items_of con kvs); reflexivity.
Qed.

(** ** Groups of stars *)

Lemma group_loop_entries (records : list (result star_record)) :
  forall groups : magnitude_groups_t,
    group_loop records groups
    = (kvs ← map_result next_star_entry records;
       Ok (foldl append_item groups kvs)).
Proof.
  induction records as [|r records IH]; intros groups; [reflexivity|].
  cbn [group_loop map_result].
  destruct r as [[[[ra dec] magnitude] bv]|e]; [|reflexivity].
  assert (E : group_star groups (ra, dec, magnitude, bv)
              = match next_star_entry (@Ok star_record (ra, dec, magnitude, bv)) with
                | Ok kv => Ok (append_item groups kv)
                | Raise e => Raise e
                end).
  { unfold next_star_entry, group_star, star_entry. simpl.
    destruct (int_of_float magnitude); reflexivity. }
  change (Ok (ra, dec, magnitude, bv) ≫= (fun rec => group_star groups rec
            ≫= (fun groups' => group_loop records groups')))
    with (group_star groups (ra, dec, magnitude, bv)
            ≫= (fun groups' => group_loop records groups')).
  rewrite E.
  destruct (next_star_entry (@Ok star_record (ra, dec, magnitude, bv)))
    as [kv|e];
    [|reflexivity].
  simpl. rewrite IH. destruct (map_result next_star_entry records); reflexivity.
Qed.

(** X2. [group_stars_by_magnitude] fails exactly where a record fails
    (the generator, or [int] of the magnitude), with the first failure;
    otherwise a key is in the groups exactly if some record has it, and its
    list holds the coordinates [[-ra, dec]] of the records with that key, in
    the order of the records. *)
Theorem star_groups (records : list (result star_record)) :
  match map_result next_star_entry records with
  | Raise e => group_stars_by_magnitude records = Raise e
  | Ok kvs =>
      exists groups,
        group_stars_by_magnitude records = Ok groups /\
        forall key,
          groups !! key = match items_of key kvs with
                          | [] => None
                          | l => Some l
                          end
  end.
Proof.
  unfold group_stars_by_magnitude. rewrite group_loop_entries.
  destruct (map_result _ records) as [kvs|e]; [|reflexivity].
  simpl. eexists. split; [reflexivity|]. intros key.
  unfold magnitude_groups_t.
  rewrite foldl_append_item, lookup_empty.
  destruct (items_of key kvs); reflexivity.
Qed.

Lemma key_le_total : Total key_le.
Proof.
  intros [z1 s1] [z2 s2]. unfold key_le. simpl.
  destruct (Z.lt_trichotomy z1 z2) as [H|[->|H]]; auto.
  destruct (total String.le s1 s2); auto.
Qed.

Lemma key_le_trans : Transitive key_le.
Proof.
  intros [z1 s1] [z2 s2] [z3 s3]. unfold key_le. simpl.
  intros [H1|[-> H1]] [H2|[-> H2]]; auto; try (left; lia).
  right. split; [reflexivity|]. etrans; eassumption.
Qed.

Lemma StronglySorted_strict {A K : Type} (R : relation K) (key : A -> K)
  (l : list A) :
  StronglySorted (fun a b => R (key a) (key b)) l ->
  NoDup (key <$> l) ->
  StronglySorted (fun a b => R (key a) (key b) /\ key a <> key b) l.
Proof.
  induction 1 as [|a l Hl IH Ha]; intros Hnd; constructor.
  - apply IH. apply NoDup_cons in Hnd as [_ Hnd]. exact Hnd.
  - apply NoDup_cons in Hnd as [Hnotin _].
    rewrite List.Forall_forall in *. intros b Hb. split; [auto|].
    intros E. apply Hnotin. rewrite E.
    apply list_elem_of_fmap_2, list_elem_of_In, Hb.
Qed.

(** X3. The list of [build_star_data] has one entry for each group and no
    other, each with the coordinates of its group, and the entries are in
    strictly ascending order of (magnitude, colour): no key comes twice. *)
Theorem star_data_sorted (lines : list string) (out : list multipoint) :
  build_star_data lines = Ok out ->
  exists groups,
    group_stars_by_magnitude (parse_hipparcos lines) = Ok groups
    /\ StronglySorted (fun a b => key_lt (mp_key a) (mp_key b)) out
    /\ (forall coordinates mag color,
          MultiPoint coordinates mag color ∈ out
          <-> groups !! (mag, color) = Some coordinates)
    /\ length out = size groups.
Proof.
  unfold build_star_data. intros H.
  destruct (group_stars_by_magnitude (parse_hipparcos lines)) as [groups|e];
    [|discriminate].
  simpl in H. injection H as <-. exists groups. split; [reflexivity|].
  set (F := fun '(mag, color, coordinates) => MultiPoint coordinates mag color).
  set (l := sorted_items key_le (map_to_list groups)).
  assert (Hperm : l ≡ₚ map_to_list groups)
    by apply merge_sort_Permutation.
  split; [|split].
  - change (map F l) with (F <$> l).
    apply (StronglySorted_fmap F
             (fun x y => key_lt x.1 y.1)
             (fun a b => key_lt (mp_key a) (mp_key b))).
    + intros [[m1 c1] v1] [[m2 c2] v2] Hxy. exact Hxy.
    + apply (StronglySorted_strict key_le fst).
      * apply StronglySorted_merge_sort.
        -- intros x y z. apply key_le_trans.
        -- intros x y. apply key_le_total.
      * rewrite Hperm. apply NoDup_fst_map_to_list.
  - intros coordinates mag color. change (map F l) with (F <$> l).
    rewrite list_elem_of_fmap. split.
    + intros ([[m c] v] & E & Hin). injection E as -> -> ->.
      rewrite Hperm in Hin. apply elem_of_map_to_list in Hin. exact Hin.
    + intros Hl. exists (mag, color, coordinates). split; [reflexivity|].
      rewrite Hperm. apply elem_of_map_to_list. exact Hl.
  - rewrite length_map, Hperm. unfold magnitude_groups_t in *.
    apply length_map_to_list.
Qed.

Lemma star_data_sorted_witness :
  exists groups,
    group_stars_by_magnitude (parse_hipparcos [star_line]) = Ok groups
    /\ StronglySorted (fun a b => key_lt (mp_key a) (mp_key b))
         [MultiPoint [PList [PFloat (float_literal "-10.0");
                             PFloat (float_literal "20.0")]] 3 "blue"]
    /\ (forall coordinates mag color,
          MultiPoint coordinates mag color
            ∈ [MultiPoint [PList [PFloat (float_literal "-10.0");
                                  PFloat (float_literal "20.0")]] 3 "blue"]
          <-> groups !! (mag, color) = Some coordinates)
    /\ length [MultiPoint [PList [PFloat (float_literal "-10.0");
                                  PFloat (float_literal "20.0")]] 3 "blue"]
       = size groups.
Proof.
  apply (star_data_sorted [star_line]). vm_compute. reflexivity.
Defined.

(** ** Failures of the readers *)

Lemma py_float_raise (s : string) (e : exn) :
  py_float s = Raise e -> e = ValueError.
Proof.
  unfold py_float. destruct (take_sign (lstrip s)) as [neg s1].
  destruct (special_float s1) as [[f rest]|].
  - destruct (all_space rest); congruence.
  - destruct (take_digits 0 0 s1) as [[ip n1] r1].
    destruct (match r1 with
              | String "." r => take_digits ip 0 r
              | _ => (ip, O, r1)
              end) as [[m n2] r2].
    destruct (n1 + n2)%nat; [congruence|].
    destruct (take_exponent r2) as [ex r3].
    destruct (all_space r3); congruence.
Qed.

Lemma py_list_map {A B : Type} (f : A -> result B) (l : list A) :
  py_list (map f l) = map_result f l.
Proof. induction l as [|x l IH]; simpl; [reflexivity|]. rewrite IH. reflexivity. Qed.

Lemma map_result_Ok {A B : Type} (f : A -> result B) (l : list A)
  (ys : list B) :
  map_result f l = Ok ys <-> Forall2 (fun x y => f x = Ok y) l ys.
Proof.
  revert ys. induction l as [|x l IH]; intros ys; simpl.
  - split; [intros [= <-]; constructor | intros H; inversion H; reflexivity].
  - split.
    + intros H. apply bind_Ok in H as (y & Hy & H).
      apply bind_Ok in H as (ys' & Hys & [= <-]).
      constructor; [assumption | apply IH; assumption].
    + intros H. inversion H as [|? y ? ys' Hy Hys]; subst.
      apply IH in Hys. rewrite Hy, Hys. reflexivity.
Qed.

Lemma map_result_app {A B : Type} (f : A -> result B) (l1 l2 : list A) :
  map_result f (l1 ++ l2)
  = (ys1 ← map_result f l1; ys2 ← map_result f l2; Ok (ys1 ++ ys2)).
Proof.
  induction l1 as [|x l1 IH]; simpl.
  - destruct (map_result f l2); reflexivity.
  - destruct (f x); simpl; [|reflexivity]. rewrite IH.
    destruct (map_result f l1); simpl; [|reflexivity].
    destruct (map_result f l2); reflexivity.
Qed.

Lemma map_result_first_failure {A B : Type} (f : A -> result B) (l : list A)
  (e : exn) :
  map_result f l = Raise e ->
  exists before x after,
    l = before ++ x :: after /\
    (exists ys, map_result f before = Ok ys) /\ f x = Raise e.
Proof.
  induction l as [|x l IH]; simpl; [discriminate|].
  destruct (f x) as [y|e'] eqn:Hx; simpl.
  - destruct (map_result f l) as [ys|e''] eqn:Hl; simpl; [discriminate|].
    intros [= <-]. destruct (IH eq_refl) as (b & z & a & -> & (ys & Hb) & Hz).
    exists (x :: b), z, a. repeat split; [|assumption].
    exists (y :: ys). simpl. rewrite Hx, Hb. reflexivity.
  - intros [= <-]. exists [], x, l. repeat split; [|assumption].
    exists []. reflexivity.
Qed.

Lemma map_result_fails_at {A B : Type} (f : A -> result B)
  (before after : list A) (x : A) (ys : list B) (e : exn) :
  map_result f before = Ok ys -> f x = Raise e ->
  map_result f (before ++ x :: after) = Raise e.
Proof.
  intros Hb Hx. rewrite map_result_app, Hb. simpl. rewrite Hx. reflexivity.
Qed.

Lemma decision_line_iff (line : string) (r : decision) :
  decision_line line = Ok r <-> decision_of line r.
Proof.
  split; [|apply decision_line_of].
  unfold decision_line, decision_of. intros H.
  destruct (String.words line) as [|ra0 [|ra1 [|dec [|con [|? ?]]]]];
    try discriminate.
  apply bind_Ok in H as (a & Ha & H).
  apply bind_Ok in H as (b & Hb & H).
  apply bind_Ok in H as (c & Hc & [= <-]).
  exists ra0, ra1, dec, con, a, b, c. auto.
Qed.

Lemma decision_line_raise (line : string) (e : exn) :
  decision_line line = Raise e -> e = ValueError.
Proof.
  unfold decision_line.
  destruct (String.words line) as [|ra0 [|ra1 [|dec [|con [|? ?]]]]];
    try congruence.
  destruct (py_float ra0) eqn:Ha; simpl;
    [|intros [= <-]; eauto using py_float_raise].
  destruct (py_float ra1) eqn:Hb; simpl;
    [|intros [= <-]; eauto using py_float_raise].
  destruct (py_float dec) eqn:Hc; simpl;
    [discriminate|intros [= <-]; eauto using py_float_raise].
Qed.

(** X4. The loader returns records exactly for the tables whose every line
    has four fields with three numbers in front: one record per line, in the
    order of the lines. Any other table fails, with [ValueError], at its
    first line that is not of that form. *)
Theorem decision_loader_exact (lines : list string) :
  (forall records,
      py_list (load_decision_data lines) = Ok records
      <-> Forall2 decision_of lines records)
  /\ (forall records,
        py_list (load_decision_data lines) = Ok records ->
        length records = length lines)
  /\ (forall e,
        py_list (load_decision_data lines) = Raise e ->
        e = ValueError /\
        exists before line after,
          lines = before ++ line :: after /\
          Forall decision_line_ok before /\ ~ decision_line_ok line).
Proof.
  unfold load_decision_data. rewrite py_list_map.
  assert (R : forall records,
             map_result decision_line lines = Ok records
             <-> Forall2 decision_of lines records).
  { intros records. rewrite map_result_Ok. split; intros H;
      (eapply Forall2_impl; [exact H|]); intros line r; apply decision_line_iff. }
  split; [exact R|split].
  - intros records H. apply R in H. symmetry. eapply Forall2_length, H.
  - intros e H. apply map_result_first_failure in H
      as (before & line & after & -> & (ys & Hb) & He).
    split; [eapply decision_line_raise, He|].
    exists before, line, after. repeat split.
    + apply map_result_Ok in Hb. clear -Hb.
      induction Hb as [|x y l l' Hxy _ IH]; constructor; [|exact IH].
      exists y. apply decision_line_iff, Hxy.
    + intros [r Hr]. apply decision_line_iff in Hr. congruence.
Qed.

(** ** Magnitudes *)

Lemma int_of_float_finite (f : float) :
  is_finite f = true -> exists z, int_of_float f = Ok z.
Proof. destruct f; simpl; try discriminate; eauto. Qed.

Lemma int_of_float_of_Z (z : Z) :
  Z.abs z < 2 ^ 53 -> int_of_float (float_of_Z z) = Ok z.
Proof.
  intros Hz. destruct (Z.eq_dec z 0) as [->|Hnz]; [reflexivity|].
  destruct (float_of_Z_finite z Hz Hnz) as (m & e & -> & He & Hm).
  unfold int_of_float. f_equal.
  assert (Hp : 0 < 2 ^ (- e)) by (apply Z.pow_pos_nonneg; lia).
  destruct (Z.leb_spec 0 e).
  - assert (e = 0) as -> by lia. simpl in *.
    destruct (z <? 0) eqn:E; simpl in Hm; lia.
  - destruct (Z.ltb_spec z 0); simpl in Hm.
    + assert (Zpos m = (- z) * 2 ^ (- e)) as -> by lia.
      rewrite Z.div_mul by lia. lia.
    + rewrite Hm, Z.div_mul by lia. reflexivity.
Qed.

(** X5. [int] of a float: an integer below 2^53 comes back from its float, and
    the fraction is cut off toward zero, the same way on both sides of
    zero. *)
Theorem int_of_float_truncates :
  (forall z : Z, Z.abs z < 2 ^ 53 -> int_of_float (float_of_Z z) = Ok z)
  /\ (forall (f : float) (z : Z),
        int_of_float f = Ok z -> int_of_float (SFopp f) = Ok (- z))
  /\ (forall (s : bool) (m : positive) (e : Z) (z : Z),
        int_of_float (S754_finite s m e) = Ok z ->
        Z.abs z * 2 ^ (- e) <= Zpos m < (Z.abs z + 1) * 2 ^ (- e)
        \/ (0 <= e /\ Z.abs z = Zpos m * 2 ^ e)).
Proof.
  split; [|split].
  - exact int_of_float_of_Z.
  - intros f z H. destruct f as [s|s| |s m e]; simpl in *; try discriminate.
    + injection H as <-. reflexivity.
    + injection H as <-. f_equal. destruct s; simpl; lia.
  - intros s m e z H. simpl in H. injection H as <-.
    destruct (Z.leb_spec 0 e).
    + right. split; [assumption|]. destruct s; lia.
    + left. assert (Hp : 0 < 2 ^ (- e)) by (apply Z.pow_pos_nonneg; lia).
      assert (Hq : 0 <= Zpos m / 2 ^ (- e)) by (apply Z.div_pos; lia).
      replace (Z.abs (if s then - (Zpos m / 2 ^ (- e)) else Zpos m / 2 ^ (- e)))
        with (Zpos m / 2 ^ (- e)) by (destruct s; lia).
      pose proof (Z.mul_div_le (Zpos m) (2 ^ (- e)) Hp).
      pose proof (Z.mul_succ_div_gt (Zpos m) (2 ^ (- e)) Hp).
      lia.
Qed.

Lemma int_of_float_truncates_witness : int_of_float (float_of_Z (-3)) = Ok (-3).
Proof. apply (proj1 int_of_float_truncates (-3)). vm_compute. reflexivity. Defined.

(** ** Failures of the star pipeline *)

Lemma next_star_entry_finite (r : star_record) :
  is_finite (magnitude_of r) = true ->
  exists kv, next_star_entry (Ok r) = Ok kv.
Proof.
  destruct r as [[[ra dec] magnitude] bv]. simpl. intros H.
  destruct (int_of_float_finite _ H) as [z Hz].
  unfold next_star_entry, star_entry. simpl. rewrite Hz. simpl. eauto.
Qed.

Lemma map_result_total {A B : Type} (f : A -> result B) (l : list A) :
  Forall (fun x => exists y, f x = Ok y) l -> exists ys, map_result f l = Ok ys.
Proof.
  induction 1 as [|x l [y Hy] _ [ys Hys]]; simpl; [eauto|].
  rewrite Hy, Hys. simpl. eauto.
Qed.

(** X6. Grouping fails only on a magnitude that is not finite: records with
    finite magnitudes are always grouped; the first record whose magnitude is
    not a number stops the grouping with [ValueError], an infinite one with
    [OverflowError]. *)
Theorem star_magnitude_failures :
  (forall records : list star_record,
      Forall (fun r => is_finite (magnitude_of r) = true) records ->
      exists groups, group_stars_by_magnitude (map Ok records) = Ok groups)
  /\ (forall (before after : list star_record) (ra dec magnitude bv : float),
        Forall (fun r => is_finite (magnitude_of r) = true) before ->
        is_finite magnitude = false ->
        group_stars_by_magnitude
          (map Ok (before ++ (ra, dec, magnitude, bv) :: after))
        = Raise (match magnitude with
                 | S754_nan => ValueError
                 | _ => OverflowError
                 end)).
Proof.
  split.
  - intros records H.
    destruct (map_result_total next_star_entry (map Ok records)) as [kvs Hk].
    { apply Forall_fmap. eapply Forall_impl; [exact H|].
      intros r Hr. apply next_star_entry_finite, Hr. }
    unfold group_stars_by_magnitude. rewrite group_loop_entries, Hk.
    simpl. eauto.
  - intros before after ra dec magnitude bv Hb Hm.
    destruct (map_result_total next_star_entry (map Ok before)) as [kvs Hk].
    { apply Forall_fmap. eapply Forall_impl; [exact Hb|].
      intros r Hr. apply next_star_entry_finite, Hr. }
    unfold group_stars_by_magnitude.
    rewrite group_loop_entries, map_app. cbn [map].
    rewrite (map_result_fails_at next_star_entry _ _ _ kvs
               (match magnitude with
                | S754_nan => ValueError
                | _ => OverflowError
                end) Hk); [reflexivity|].
    destruct magnitude; try discriminate; reflexivity.
Qed.

Lemma star_magnitude_failures_witness :
  group_stars_by_magnitude
    (map Ok ([(float_of_Z 1, float_of_Z 2, float_of_Z 3, float_of_Z 0)]
             ++ (float_of_Z 1, float_of_Z 2, S754_nan, float_of_Z 0) :: []))
  = Raise ValueError.
Proof.
  apply (proj2 star_magnitude_failures
           [(float_of_Z 1, float_of_Z 2, float_of_Z 3, float_of_Z 0)] []
           (float_of_Z 1) (float_of_Z 2) S754_nan (float_of_Z 0)).
  - repeat constructor.
  - reflexivity.
Defined.

(** ** Splitting a line *)

Lemma split_max_nonempty (sep : ascii) (n : nat) (s : string) :
  split_max sep n s <> [].
Proof.
  destruct s as [|c s], n as [|n]; simpl; try discriminate.
  destruct (Ascii.eqb c sep); [discriminate|].
  destruct (split_max sep (S n) s); discriminate.
Qed.

Lemma join_cons_char (sep : string) (c : ascii) (w : string) (ws : list string) :
  join sep (String c w :: ws) = String c (join sep (w :: ws)).
Proof. destruct ws; reflexivity. Qed.

Lemma split_max_length (sep : ascii) (maxsplit : nat) (s : string) :
  length (split_max sep maxsplit s) = S (Nat.min maxsplit (count_char sep s)).
Proof.
  revert maxsplit. induction s as [|c s IH]; intros [|k]; try reflexivity.
  cbn [split_max count_char].
  destruct (Ascii.eqb c sep).
  - simpl. rewrite IH. reflexivity.
  - pose proof (IH (S k)) as IHl.
    pose proof (split_max_nonempty sep (S k) s) as Hne.
    destruct (split_max sep (S k) s) as [|w ws]; [congruence|].
    simpl in *. exact IHl.
Qed.

(** X7. [split] with a limit cuts at the first [maxsplit] separators and loses
    nothing: joined again with the separator, the pieces give the string
    back. *)
Theorem split_max_join (sep : ascii) (maxsplit : nat) (s : string) :
  join (String sep EmptyString) (split_max sep maxsplit s) = s
  /\ length (split_max sep maxsplit s)
     = S (Nat.min maxsplit (count_char sep s)).
Proof.
  split; [|apply split_max_length].
  revert maxsplit. induction s as [|c s IH]; intros [|k]; try reflexivity.
  cbn [split_max].
  destruct (Ascii.eqb c sep) eqn:E.
  - apply Ascii.eqb_eq in E as ->.
    pose proof (split_max_nonempty sep k s) as Hne. pose proof (IH k) as IHj.
    destruct (split_max sep k s) as [|w ws] eqn:Es; [congruence|].
    change (join (String sep EmptyString) (EmptyString :: w :: ws))
      with (String sep (join (String sep EmptyString) (w :: ws))).
    rewrite IHj. reflexivity.
  - pose proof (split_max_nonempty sep (S k) s) as Hne.
    pose proof (IH (S k)) as IHj.
    destruct (split_max sep (S k) s) as [|w ws] eqn:Es; [congruence|].
    rewrite join_cons_char, IHj. reflexivity.
Qed.

(** X8. A line of the boundary file with fewer than four spaces has fewer than
    five fields and is refused with [ValueError]. *)
Theorem short_boundary_line (line : string) :
  (count_char " " line < 4)%nat -> vertex_of_line line = Raise ValueError.
Proof.
  intros H. unfold vertex_of_line.
  pose proof (split_max_length " " 4 line) as Hl.
  destruct (split_max " " 4 line) as [|a [|b [|c [|d [|e [|? ?]]]]]];
    try reflexivity; cbn [length] in Hl; lia.
Qed.

Lemma short_boundary_line_witness :
  vertex_of_line "12 01:02:03 05:30:00 CEP" = Raise ValueError.
Proof. apply short_boundary_line. vm_compute. lia. Defined.

(** ** Failures of the boundary parser *)

Lemma ra_of_text_raise (t : string) (e : exn) :
  ra_of_text t = Raise e -> e = ValueError.
Proof.
  unfold ra_of_text. intros H.
  destruct (int_triple t) as [[[h m] s]|e'] eqn:Ht; simpl in H; [discriminate|].
  injection H as <-. eapply int_triple_raise, Ht.
Qed.

(** X9. A line is refused with [ValueError] or [AssertionError]; the third
    failure, [OverflowError], needs a declination of at least 2^53 minutes
    of arc. *)
Theorem vertex_failures (line : string) (e : exn) :
  vertex_of_line line = Raise e ->
  e = ValueError \/ e = AssertionError
  \/ (e = OverflowError /\
      exists (vertex_key ra_text dec_text con cons' : string) (d m : Z),
        split_max " " 4 line = [vertex_key; ra_text; dec_text; con; cons']
        /\ int_triple dec_text = Ok (d, m, 0)
        /\ 2 ^ 53 <= Z.abs (60 * d) + Z.abs m).
Proof.
  unfold vertex_of_line. intros H.
  destruct (split_max " " 4 line) as [|vk [|ra_text [|dec_text [|con [|cons' [|? ?]]]]]];
    try (left; congruence).
  destruct (ra_of_text ra_text) as [ra|e'] eqn:Hra; simpl in H;
    [|left; injection H as <-; eapply ra_of_text_raise, Hra].
  destruct (dec_of_text dec_text) as [dec|e'] eqn:Hdec; simpl in H;
    [discriminate|]. injection H as <-.
  unfold dec_of_text in Hdec.
  destruct (int_triple dec_text) as [[[d m] s]|e''] eqn:Ht; simpl in Hdec;
    [|left; injection Hdec as <-; eapply int_triple_raise, Ht].
  destruct (Z.eqb_spec s 0) as [->|Hs]; [|right; left; congruence].
  right. right. split; [eapply dec_arith_raise, Hdec|].
  exists vk, ra_text, dec_text, con, cons', d, m.
  split; [reflexivity|]. split; [exact Ht|].
  destruct (Z_lt_le_dec (Z.abs (60 * d) + Z.abs m) (2 ^ 53)) as [Hlt|]; [|assumption].
  rewrite (dec_minutes_exact d m Hlt) in Hdec. discriminate.
Qed.

Lemma vertex_failures_witness :
  AssertionError = ValueError \/ AssertionError = AssertionError
  \/ (AssertionError = OverflowError /\
      exists (vertex_key ra_text dec_text con cons' : string) (d m : Z),
        split_max " " 4 "1 01:02:03 10:20:05 CEP CEP"
          = [vertex_key; ra_text; dec_text; con; cons']
        /\ int_triple dec_text = Ok (d, m, 0)
        /\ 2 ^ 53 <= Z.abs (60 * d) + Z.abs m).
Proof.
  apply (vertex_failures "1 01:02:03 10:20:05 CEP CEP"). reflexivity.
Defined.

(** ** Failures of the star catalogue parser *)

Lemma substring_short (n m : nat) (s : string) :
  (String.length s <= n)%nat -> String.substring n m s = EmptyString.
Proof.
  revert n m. induction s as [|c s IH]; intros n m H.
  - destruct n, m; reflexivity.
  - destruct n as [|n]; simpl in *; [lia|]. apply IH. lia.
Qed.

(** X10. A catalogue line is refused with [ValueError] and nothing else, and
    every line of at most 245 characters is refused: the colour index is
    read from columns 246 to 251. *)
Theorem parse_hipparcos_line_failures (line : string) :
  (forall e, parse_hipparcos_line line = Raise e -> e = ValueError)
  /\ ((String.length line <= 245)%nat ->
      parse_hipparcos_line line = Raise ValueError).
Proof.
  assert (R : forall e, parse_hipparcos_line line = Raise e -> e = ValueError).
  { unfold parse_hipparcos_line. intros e H.
    destruct (py_float (slice 41 46 line)) eqn:H1; simpl in H;
      [|injection H as <-; eauto using py_float_raise].
    destruct (py_float (slice 51 63 line)) eqn:H2; simpl in H;
      [|injection H as <-; eauto using py_float_raise].
    destruct (py_float (slice 64 76 line)) eqn:H3; simpl in H;
      [|injection H as <-; eauto using py_float_raise].
    destruct (py_float (slice 245 251 line)) eqn:H4; simpl in H;
      [discriminate|injection H as <-; eauto using py_float_raise]. }
  split; [exact R|]. intros Hlen.
  destruct (parse_hipparcos_line line) as [r|e] eqn:H; [|f_equal; eauto].
  exfalso. unfold parse_hipparcos_line in H.
  apply bind_Ok in H as (a & _ & H). apply bind_Ok in H as (b & _ & H).
  apply bind_Ok in H as (c & _ & H). apply bind_Ok in H as (d & Hd & _).
  unfold slice in Hd. rewrite substring_short in Hd by assumption.
  discriminate Hd.
Qed.

Lemma parse_hipparcos_line_failures_witness :
  parse_hipparcos_line "     1|     2| 3.20" = Raise ValueError.
Proof.
  apply (proj2 (parse_hipparcos_line_failures "     1|     2| 3.20")).
  simpl. lia.
Defined.

(** ** Upper case *)

Lemma upper_char_upper (c : ascii) :
  is_lower (upper_char c) = false
  /\ (is_lower c = false -> upper_char c = c).
Proof. destruct c as [[] [] [] [] [] [] [] []]; split; (reflexivity || discriminate). Qed.

(** X11. The code of every record of the decision table has no lower-case
    letter left, is as long as the field it was read from, and is the field
    itself when the field had no lower-case letter. *)
Theorem decision_code_upper (line : string) (r : decision) :
  decision_line line = Ok r ->
  exists ra0 ra1 dec con,
    String.words line = [ra0; ra1; dec; con]
    /\ no_lower (code_of r) = true
    /\ String.length (code_of r) = String.length con
    /\ (no_lower con = true -> code_of r = con).
Proof.
  intros H. apply decision_line_iff in H
    as (ra0 & ra1 & dec & con & a & b & c & Hw & _ & _ & _ & ->).
  exists ra0, ra1, dec, con. split; [assumption|]. simpl. unfold upper.
  clear. induction con as [|x con (IH1 & IH2 & IH3)]; [repeat split|].
  destruct (upper_char_upper x) as [U1 U2]. simpl. rewrite U1, IH1, IH2.
  repeat split. intros H. apply andb_true_iff in H as [Hx Hc].
  rewrite U2, IH3; auto. destruct (is_lower x); [discriminate | reflexivity].
Qed.

Lemma decision_code_upper_witness :
  exists ra0 ra1 dec con,
    String.words "1.0 2.0 10.0 cEp" = [ra0; ra1; dec; con]
    /\ no_lower "CEP" = true
    /\ String.length "CEP" = String.length con
    /\ (no_lower con = true -> "CEP" = con).
Proof.
  apply (decision_code_upper "1.0 2.0 10.0 cEp"
           (float_literal "15.0", float_literal "30.0", float_literal "10.0",
            "CEP")).
  vm_compute. reflexivity.
Defined.

(** ** The characters of the serialized text *)

Section Characters.
Variable P : ascii -> bool.
Hypothesis P_tokens : all_chars P token_chars = true.

Lemma all_chars_app (a b : string) :
  all_chars P (a +:+ b) = all_chars P a && all_chars P b.
Proof.
  induction a as [|c a IH]; [reflexivity|].
  rewrite app_String. simpl. rewrite IH, andb_assoc. reflexivity.
Qed.

Lemma token_ok (c : ascii) :
  negb (Nat.eqb (count_char c token_chars) 0) = true -> P c = true.
Proof.
  pose proof P_tokens as H. revert H.
  generalize token_chars. intros t. induction t as [|x t IH]; [discriminate|].
  simpl. intros H Hc. apply andb_true_iff in H as [Hx Ht].
  destruct (Ascii.eqb_spec x c) as [->|Hne]; [assumption|].
  apply IH; assumption.
Qed.

Lemma all_tokens (s : string) :
  all_chars (fun c => negb (Nat.eqb (count_char c token_chars) 0)) s = true ->
  all_chars P s = true.
Proof.
  induction s as [|c s IH]; [reflexivity|]. simpl. intros H.
  apply andb_true_iff in H as [Hc Hs]. rewrite (token_ok c Hc). auto.
Qed.

Lemma digit_char_ok (d : Z) : 0 <= d < 10 -> P (digit_char d) = true.
Proof.
  intros H. apply token_ok.
  assert (C : d = 0 \/ d = 1 \/ d = 2 \/ d = 3 \/ d = 4 \/ d = 5 \/ d = 6
              \/ d = 7 \/ d = 8 \/ d = 9) by lia.
  repeat (destruct C as [->|C]; [reflexivity|]). subst. reflexivity.
Qed.

Lemma digits_go_ok (fuel : nat) (n : Z) (acc : string) :
  all_chars P acc = true -> all_chars P (digits_go fuel n acc) = true.
Proof.
  revert n acc. induction fuel as [|fuel IH]; intros n acc Hacc; [assumption|].
  simpl.
  assert (Hc : all_chars P (String (digit_char (n mod 10)) acc) = true).
  { simpl. rewrite digit_char_ok, Hacc; [reflexivity|].
    apply Z.mod_pos_bound. lia. }
  destruct (n <? 10); [exact Hc | apply IH, Hc].
Qed.

Lemma str_of_nat_ok (n : Z) : all_chars P (str_of_nat n) = true.
Proof. apply digits_go_ok. reflexivity. Qed.

Lemma str_of_Z_ok (z : Z) : all_chars P (str_of_Z z) = true.
Proof.
  unfold str_of_Z. destruct (z <? 0); [|apply str_of_nat_ok].
  simpl. rewrite str_of_nat_ok, (token_ok "-"); reflexivity.
Qed.

Lemma zeros_ok (n : nat) : all_chars P (zeros n) = true.
Proof.
  induction n as [|n IH]; [reflexivity|].
  simpl. rewrite IH, (token_ok "0"); reflexivity.
Qed.

Lemma substring_ok (s : string) (n m : nat) :
  all_chars P s = true -> all_chars P (String.substring n m s) = true.
Proof.
  revert n m. induction s as [|a s IH]; intros n m H.
  - destruct n, m; reflexivity.
  - simpl in H. apply andb_true_iff in H as [Ha Hs].
    destruct n as [|n]; simpl.
    + destruct m as [|m]; [reflexivity|]. simpl. rewrite Ha. simpl. auto.
    + auto.
Qed.

Lemma format_repr_ok (ds : string) (decpt : Z) :
  all_chars P ds = true -> all_chars P (format_repr ds decpt) = true.
Proof.
  intros H. unfold format_repr.
  assert (Tdot : P "." = true) by (apply token_ok; reflexivity).
  assert (T0 : P "0" = true) by (apply token_ok; reflexivity).
  assert (Te : P "e" = true) by (apply token_ok; reflexivity).
  assert (Tm : P "-" = true) by (apply token_ok; reflexivity).
  assert (Tp : P "+" = true) by (apply token_ok; reflexivity).
  destruct ((decpt <=? -4) || (16 <? decpt)).
  - rewrite all_chars_app.
    assert (Hm : all_chars P
                   match ds with
                   | String c EmptyString => ds
                   | String c (String _ _ as rest) => String c (String "." rest)
                   | EmptyString => ds
                   end = true).
    { destruct ds as [|c [|c' r]]; auto. simpl in *.
      apply andb_true_iff in H as [Hc Hr]. rewrite Hc, Tdot, Hr. reflexivity. }
    rewrite Hm. simpl. rewrite Te. simpl.
    assert (He : all_chars P
                   (if Z.abs (decpt - 1) <? 10
                    then String "0" (str_of_nat (Z.abs (decpt - 1)))
                    else str_of_nat (Z.abs (decpt - 1))) = true).
    { destruct (Z.abs (decpt - 1) <? 10); simpl;
        rewrite ?T0, str_of_nat_ok; reflexivity. }
    rewrite He. destruct (decpt - 1 <? 0); rewrite ?Tm, ?Tp; reflexivity.
  - destruct (decpt <=? 0).
    + rewrite !all_chars_app, zeros_ok, H. simpl. rewrite T0, Tdot. reflexivity.
    + destruct (Z.of_nat (String.length ds) <=? decpt).
      * rewrite !all_chars_app, zeros_ok, H. simpl. rewrite T0, Tdot.
        reflexivity.
      * rewrite !all_chars_app, !substring_ok by assumption.
        simpl. rewrite Tdot. reflexivity.
Qed.

Lemma float_json_ok (f : float) : all_chars P (float_json f) = true.
Proof.
  destruct f as [[|]|[|]| |s m e]; try (apply all_tokens; reflexivity).
  unfold float_json, float_repr.
  destruct (fraction_of m e) as [num den].
  destruct (shortest_go 16 1 (S754_finite false m e) num den
              (decimal_point num den)) as [d k].
  destruct (strip_zeros 20 d k) as [d' k'].
  pose proof (format_repr_ok (str_of_nat d')
                (k' + Z.of_nat (String.length (str_of_nat d')))
                (str_of_nat_ok d')) as H.
  destruct s; simpl; rewrite H, ?(token_ok "-"); reflexivity.
Qed.

Lemma hex_digit_ok (k : N) : (k < 16)%N -> P (hex_digit k) = true.
Proof.
  intros H. apply token_ok.
  assert (C : (k = 0 \/ k = 1 \/ k = 2 \/ k = 3 \/ k = 4 \/ k = 5 \/ k = 6
               \/ k = 7 \/ k = 8 \/ k = 9 \/ k = 10 \/ k = 11 \/ k = 12
               \/ k = 13 \/ k = 14 \/ k = 15)%N) by lia.
  repeat (destruct C as [->|C]; [reflexivity|]). subst. reflexivity.
Qed.

Lemma escape_u_ok (n : N) : all_chars P (escape_u n) = true.
Proof.
  unfold escape_u. simpl.
  rewrite !hex_digit_ok by (apply N.mod_lt; discriminate).
  rewrite (token_ok backslash), (token_ok "u"); reflexivity.
Qed.

Lemma escape_char_ok (n : N) : plain_ok P n -> all_chars P (escape_char n) = true.
Proof.
  intros H. unfold escape_char.
  repeat match goal with
         | |- context [if (n =? ?k)%N then _ else _] =>
             destruct (n =? k)%N; [apply all_tokens; reflexivity|]
         end.
  destruct ((32 <=? n)%N && (n <=? 126)%N) eqn:E.
  - simpl. apply andb_true_iff in E as [E1 E2].
    apply N.leb_le in E1, E2. rewrite H by lia. reflexivity.
  - destruct (n <? 65536)%N; [apply escape_u_ok|].
    rewrite all_chars_app, !escape_u_ok. reflexivity.
Qed.

Lemma decode_utf8_plain (n : nat) :
  forall bs cps,
    (length bs <= n)%nat ->
    Forall (plain_ok P) bs ->
    decode_utf8 bs = Ok cps ->
    Forall (plain_ok P) cps.
Proof.
  assert (Big : forall c : N, (128 <= c)%N -> plain_ok P c)
    by (intros c Hc Hr; lia).
  induction n as [|n IH]; intros bs cps Hlen Hbs H.
  - destruct bs; [|simpl in Hlen; lia]. injection H as <-. constructor.
  - destruct bs as [|b0 r0]; [injection H as <-; constructor|].
    inversion Hbs as [|? ? Hb0 Hr0]; subst. simpl in Hlen.
    cbn [decode_utf8] in H.
    destruct (b0 <? 128)%N.
    { apply bind_Ok in H as (cs & Hcs & [= <-]).
      constructor; [assumption|]. apply (IH r0); [lia | assumption | assumption]. }
    destruct ((194 <=? b0)%N && (b0 <=? 223)%N) eqn:E2.
    { destruct r0 as [|b1 r1]; [discriminate|].
      destruct (is_cont b1) eqn:C1; [|discriminate].
      apply bind_Ok in H as (cs & Hcs & [= <-]).
      inversion Hr0; subst. simpl in Hlen.
      apply andb_true_iff in E2 as [E2 _]. apply N.leb_le in E2.
      unfold is_cont in C1. apply andb_true_iff in C1 as [C1 _].
      apply N.leb_le in C1.
      constructor; [apply Big; lia|].
      apply (IH r1); [lia | assumption | assumption]. }
    destruct ((224 <=? b0)%N && (b0 <=? 239)%N) eqn:E3.
    { destruct r0 as [|b1 [|b2 r2]]; try discriminate.
      case_if; [|discriminate].
      apply bind_Ok in H as (cs & Hcs & [= <-]).
      inversion Hr0 as [|? ? _ Hr1]; subst. inversion Hr1; subst.
      simpl in Hlen.
      apply andb_true_iff in E3 as [E3 _]. apply N.leb_le in E3.
      repeat match goal with
             | H : _ && _ = true |- _ => apply andb_true_iff in H as [? ?]
             end.
      unfold is_cont in *.
      repeat match goal with
             | H : _ && _ = true |- _ => apply andb_true_iff in H as [? ?]
             end.
      repeat match goal with
             | H : (_ <=? _)%N = true |- _ => apply N.leb_le in H
             end.
      destruct (N.eq_dec b0 224%N) as [->|Hne].
      - match goal with
        | H : _ || _ = true |- _ => simpl in H; apply N.leb_le in H
        end.
        constructor; [apply Big; lia|].
        apply (IH r2); [lia | assumption | assumption].
      - constructor; [apply Big; lia|].
        apply (IH r2); [lia | assumption | assumption]. }
    destruct ((240 <=? b0)%N && (b0 <=? 244)%N) eqn:E4; [|discriminate].
    destruct r0 as [|b1 [|b2 [|b3 r3]]]; try discriminate.
    case_if; [|discriminate].
    apply bind_Ok in H as (cs & Hcs & [= <-]).
    inversion Hr0 as [|? ? _ Hr1]; subst. inversion Hr1 as [|? ? _ Hr2]; subst.
    inversion Hr2; subst. simpl in Hlen.
    apply andb_true_iff in E4 as [E4 _]. apply N.leb_le in E4.
    repeat match goal with
           | H : _ && _ = true |- _ => apply andb_true_iff in H as [? ?]
           end.
    unfold is_cont in *.
    repeat match goal with
           | H : _ && _ = true |- _ => apply andb_true_iff in H as [? ?]
           end.
    repeat match goal with
           | H : (_ <=? _)%N = true |- _ => apply N.leb_le in H
           end.
    destruct (N.eq_dec b0 240%N) as [->|Hne].
    + match goal with
      | H : negb (240 =? 240)%N || _ = true |- _ =>
          simpl in H; apply N.leb_le in H
      end.
      constructor; [apply Big; lia|].
      apply (IH r3); [lia | assumption | assumption].
    + constructor; [apply Big; lia|].
      apply (IH r3); [lia | assumption | assumption].
Qed.

Lemma encode_basestring_ascii_ok (s t : string) :
  Forall (plain_ok P) (bytes_of s) ->
  encode_basestring_ascii s = Ok t ->
  all_chars P t = true.
Proof.
  intros Hs H. unfold encode_basestring_ascii in H.
  apply bind_Ok in H as (cps & Hd & [= <-]).
  pose proof (decode_utf8_plain _ _ _ (le_n _) Hs Hd) as Hc.
  assert (Tq : P dquote = true) by (apply token_ok; reflexivity).
  simpl. rewrite Tq, all_chars_app. simpl. rewrite Tq.
  assert (E : all_chars P (concat_strings (map escape_char cps)) = true).
  { clear -Hc P_tokens. induction Hc as [|b cps Hb _ IH]; [reflexivity|].
    simpl. rewrite all_chars_app, escape_char_ok, IH by assumption.
    reflexivity. }
  rewrite E. reflexivity.
Qed.

Lemma join_ok (sep : string) (ts : list string) :
  all_chars P sep = true ->
  Forall (fun t => all_chars P t = true) ts ->
  all_chars P (join sep ts) = true.
Proof.
  intros Hsep H. induction H as [|t ts Ht _ IH]; [reflexivity|].
  destruct ts as [|t' ts]; [exact Ht|].
  change (join sep (t :: t' :: ts)) with (t +:+ sep +:+ join sep (t' :: ts)).
  rewrite !all_chars_app, Ht, Hsep, IH. reflexivity.
Qed.

Lemma forallb_plain (Q : N -> bool) (bs : list N) :
  plain_value P Q -> forallb Q bs = true -> Forall (plain_ok P) bs.
Proof.
  intros HQ H. rewrite forallb_forall in H. apply List.Forall_forall.
  intros b Hb. apply HQ, H, Hb.
Qed.

Lemma dumps_ok (Q : N -> bool) (v : pyval) :
  plain_value P Q -> strings_all Q v = true ->
  forall t, dumps v = Ok t -> all_chars P t = true.
Proof.
  intros HQ.
  assert (Tc : all_chars P "," = true) by (apply all_tokens; reflexivity).
  assert (Tl : all_chars P "[" = true) by (apply all_tokens; reflexivity).
  assert (Tr : all_chars P "]" = true) by (apply all_tokens; reflexivity).
  assert (Tlb : all_chars P "{" = true) by (apply all_tokens; reflexivity).
  assert (Trb : all_chars P "}" = true) by (apply all_tokens; reflexivity).
  assert (Tco : all_chars P ":" = true) by (apply all_tokens; reflexivity).
  induction v as [z|f|s|l IH|l IH|items IH] using pyval_induction;
    intros Hv t H.
  - injection H as <-. apply str_of_Z_ok.
  - injection H as <-. apply float_json_ok.
  - simpl in Hv, H.
    eapply encode_basestring_ascii_ok; [|eassumption].
    eapply forallb_plain; eassumption.
  - rewrite dumps_PList in H. apply bind_Ok in H as (ts & Hts & [= <-]).
    simpl in Hv. rewrite forallb_forall in Hv.
    rewrite !all_chars_app, Tl, Tr, join_ok; [reflexivity | exact Tc |].
    eapply (map_result_Forall dumps (fun x => strings_all Q x = true));
      [exact IH | | exact Hts].
    apply List.Forall_forall. exact Hv.
  - rewrite dumps_PTuple in H. apply bind_Ok in H as (ts & Hts & [= <-]).
    simpl in Hv. rewrite forallb_forall in Hv.
    rewrite !all_chars_app, Tl, Tr, join_ok; [reflexivity | exact Tc |].
    eapply (map_result_Forall dumps (fun x => strings_all Q x = true));
      [exact IH | | exact Hts].
    apply List.Forall_forall. exact Hv.
  - rewrite dumps_PDict in H. apply bind_Ok in H as (ts & Hts & [= <-]).
    simpl in Hv. rewrite forallb_forall in Hv.
    rewrite !all_chars_app, Tlb, Trb, join_ok; [reflexivity | exact Tc |].
    eapply (map_result_Forall dumps_item
              (fun kv => forallb Q (bytes_of (fst kv))
                         && strings_all Q (snd kv) = true));
      [ | apply List.Forall_forall; exact Hv | exact Hts].
    eapply Forall_impl; [exact IH|].
    intros [k x] IHx Hkv t Ht. cbn [fst snd] in *.
    apply andb_true_iff in Hkv as [Hk Hx].
    unfold dumps_item in Ht. cbn [fst snd] in Ht.
    apply bind_Ok in Ht as (kt & Hkt & Ht).
    apply bind_Ok in Ht as (vt & Hvt & [= <-]).
    rewrite !all_chars_app, Tco.
    rewrite (encode_basestring_ascii_ok k kt (forallb_plain Q _ HQ Hk) Hkt).
    rewrite (IHx Hx _ Hvt). reflexivity.
Qed.

Lemma replace_ok (a b : ascii) (t : string) :
  P b = true -> all_chars P t = true -> all_chars P (replace a b t) = true.
Proof.
  intros Hb. unfold replace. induction t as [|c t IH]; [reflexivity|].
  simpl. intros H. apply andb_true_iff in H as [Hc Ht].
  rewrite (IH Ht). destruct (Ascii.eqb c a); rewrite ?Hb, ?Hc; reflexivity.
Qed.

Lemma jsonify_ok (Q : N -> bool) (v : pyval) (t : string) :
  plain_value P Q -> strings_all Q v = true ->
  jsonify v = Ok t -> all_chars P t = true.
Proof.
  intros HQ Hv H. unfold jsonify in H.
  apply bind_Ok in H as (t0 & Ht0 & [= <-]).
  apply replace_ok; [apply token_ok; reflexivity|].
  eapply dumps_ok; eassumption.
Qed.

End Characters.

Lemma strings_all_true (v : pyval) : strings_all (fun _ => true) v = true.
Proof.
  induction v as [z|f|s|l IH|l IH|items IH] using pyval_induction; simpl;
    try reflexivity.
  - induction (bytes_of s); simpl; auto.
  - induction IH; simpl; auto. rewrite H, IHIH. reflexivity.
  - induction IH; simpl; auto. rewrite H, IHIH. reflexivity.
  - induction IH as [|[k x] items Hx _ IHi]; simpl; auto.
    simpl in Hx. rewrite Hx, IHi, andb_true_r. simpl.
    induction (bytes_of k); simpl; auto.
Qed.

(** X12. Whatever the data, the text of [jsonify] is made of printable ASCII
    characters only (codes 32 to 126): no control character, no line break
    and no byte above 127 reaches it. *)
Theorem jsonify_printable (data : pyval) (t : string) :
  jsonify data = Ok t -> all_chars printable t = true.
Proof.
  apply (jsonify_ok printable eq_refl (fun _ => true)).
  - intros b _ Hb. unfold printable.
    rewrite N_ascii_embedding by lia.
    apply andb_true_iff. split; apply N.leb_le; lia.
  - apply strings_all_true.
Qed.

Lemma jsonify_printable_witness :
  all_chars printable "[3723,'C\nP']" = true.
Proof.
  apply (jsonify_printable (PList [PInt 3723; PStr (String "C" (String "010" "P"))])).
  vm_compute. reflexivity.
Defined.

(** X13. The text is compact: it holds a space only where string data holds
    one. *)
Theorem jsonify_compact (data : pyval) (t : string) :
  strings_all not_space data = true ->
  jsonify data = Ok t -> count_char " " t = O.
Proof.
  intros Hd H.
  pose proof (jsonify_ok (fun c => negb (Ascii.eqb c " ")) eq_refl
                not_space data t) as A.
  assert (Ht : all_chars (fun c => negb (Ascii.eqb c " ")) t = true).
  { apply A; [|assumption|assumption].
    intros b Hb Hr. unfold not_space in Hb.
    destruct (Ascii.eqb_spec (ascii_of_N b) " ") as [E|]; [|reflexivity].
    exfalso. apply (f_equal N_of_ascii) in E.
    rewrite N_ascii_embedding in E by lia. simpl in E. subst b. discriminate. }
  clear -Ht. induction t as [|c t IH]; [reflexivity|].
  simpl in *. apply andb_true_iff in Ht as [Hc Ht].
  rewrite (IH Ht). destruct (Ascii.eqb c " "); [discriminate | reflexivity].
Qed.

Lemma jsonify_compact_witness :
  count_char " " "{'CEP':[3723,330.0]}" = O.
Proof.
  apply (jsonify_compact
           (PDict [("CEP", PList [PInt 3723; PFloat (float_of_Z 330)])])).
  - reflexivity.
  - vm_compute. reflexivity.
Defined.

(** ** Failures of the serializer *)









(** ** Integers written and read back *)

Lemma digit_of_char (d : Z) : 0 <= d < 10 -> digit_of (digit_char d) = Some d.
Proof.
  intros H.
  assert (C : d = 0 \/ d = 1 \/ d = 2 \/ d = 3 \/ d = 4 \/ d = 5 \/ d = 6
              \/ d = 7 \/ d = 8 \/ d = 9) by lia.
  repeat (destruct C as [->|C]; [reflexivity|]). subst d. reflexivity.
Qed.

Lemma digit_plain (c : ascii) (d : Z) :
  digit_of c = Some d ->
  is_space c = false /\ c <> "-"%char /\ c <> "+"%char
  /\ Ascii.eqb c dquote = false.
Proof.
  destruct c as [[] [] [] [] [] [] [] []]; intros H;
    try discriminate H; repeat split; discriminate.
Qed.

(** The digits written by [digits_go] are read back by [take_digits] as the
    number they were written from. *)
Lemma take_digits_go (fuel : nat) :
  forall (n : Z) (acc : string),
    (0 < fuel)%nat -> 0 <= n < 2 ^ Z.of_nat fuel ->
    exists (c : ascii) (s : string) (d : nat),
      digits_go fuel n acc = String c s
      /\ is_digit c = true
      /\ forall a k,
           take_digits a k (digits_go fuel n acc)
           = take_digits (a * 10 ^ Z.of_nat (S d) + n) (k + S d) acc.
Proof.
  induction fuel as [|fuel IH]; intros n acc Hf Hn; [lia|].
  cbn [digits_go].
  assert (Hm : 0 <= n mod 10 < 10) by (apply Z.mod_pos_bound; lia).
  pose proof (digit_of_char _ Hm) as Hd.
  destruct (Z.ltb_spec n 10) as [Hlt|Hge].
  - exists (digit_char (n mod 10)), acc, O. split; [reflexivity|].
    split; [unfold is_digit; rewrite Hd; reflexivity|].
    intros a k. cbn [take_digits]. rewrite Hd.
    rewrite Z.mod_small by lia. f_equal; simpl; lia.
  - assert (Hq : 0 <= n / 10 < 2 ^ Z.of_nat fuel).
    { split; [apply Z.div_pos; lia|].
      apply Z.div_lt_upper_bound; [lia|].
      rewrite Nat2Z.inj_succ, Z.pow_succ_r in Hn by lia. lia. }
    assert (Hf' : (0 < fuel)%nat).
    { destruct fuel; [|lia]. exfalso.
      assert (1 <= n / 10) by (apply Z.div_le_lower_bound; lia).
      simpl in Hq. lia. }
    destruct (IH (n / 10) (String (digit_char (n mod 10)) acc) Hf' Hq)
      as (c & s & d & E & Hc & Ht).
    exists c, s, (S d). split; [exact E|]. split; [exact Hc|].
    intros a k. rewrite Ht. cbn [take_digits]. rewrite Hd.
    rewrite (Nat2Z.inj_succ (S d)), Z.pow_succ_r by lia.
    pose proof (Z.div_mod n 10 ltac:(lia)) as Hdm.
    set (p := 10 ^ Z.of_nat (S d)) in *.
    f_equal; lia.
Qed.

Lemma str_of_nat_read (n : Z) :
  0 <= n ->
  exists (c : ascii) (s : string) (d : nat),
    str_of_nat n = String c s
    /\ is_digit c = true
    /\ take_digits 0 O (str_of_nat n) = (n, S d, EmptyString).
Proof.
  intros Hn. unfold str_of_nat.
  destruct (take_digits_go (S (Z.to_nat (Z.log2 n))) n EmptyString)
    as (c & s & d & E & Hc & Ht); [lia| |].
  { split; [assumption|].
    rewrite Nat2Z.inj_succ, Z2Nat.id by apply Z.log2_nonneg.
    destruct (Z.eq_dec n 0) as [->|Hz]; [reflexivity|].
    apply Z.log2_spec. lia. }
  exists c, s, d. split; [exact E|]. split; [exact Hc|].
  rewrite Ht. reflexivity.
Qed.

Lemma py_int_str_of_nat (n : Z) : 0 <= n -> py_int (str_of_nat n) = Ok n.
Proof.
  intros Hn. destruct (str_of_nat_read n Hn) as (c & s & d & E & Hc & Ht).
  unfold is_digit in Hc. destruct (digit_of c) as [v|] eqn:Hv; [|discriminate].
  destruct (digit_plain c v Hv) as (Hs & Hminus & Hplus & _).
  unfold py_int. rewrite E in *. cbn [lstrip]. rewrite Hs.
  assert (L : lstrip (String c s) = String c s) by (cbn [lstrip]; rewrite Hs; reflexivity).
  destruct c as [[] [] [] [] [] [] [] []]; try congruence;
    rewrite L, Ht; reflexivity.
Qed.

Lemma no_dquote_replace (s : string) :
  all_chars (fun c => negb (Ascii.eqb c dquote)) s = true ->
  replace dquote squote s = s.
Proof.
  unfold replace. induction s as [|c s IH]; [reflexivity|]. simpl.
  intros H. apply andb_true_iff in H as [Hc Hs]. rewrite (IH Hs).
  destruct (Ascii.eqb c dquote); [discriminate | reflexivity].
Qed.

Lemma digits_go_no_dquote (fuel : nat) :
  forall n acc,
    all_chars (fun c => negb (Ascii.eqb c dquote)) acc = true ->
    all_chars (fun c => negb (Ascii.eqb c dquote)) (digits_go fuel n acc)
    = true.
Proof.
  induction fuel as [|fuel IH]; intros n acc Hacc; [exact Hacc|].
  cbn [digits_go].
  assert (Hm : 0 <= n mod 10 < 10) by (apply Z.mod_pos_bound; lia).
  destruct (digit_plain _ _ (digit_of_char _ Hm)) as (_ & _ & _ & Hq).
  assert (A : all_chars (fun c => negb (Ascii.eqb c dquote))
                (String (digit_char (n mod 10)) acc) = true)
    by (cbn [all_chars]; rewrite Hq, Hacc; reflexivity).
  destruct (n <? 10); [exact A | apply IH, A].
Qed.

(** X15. An integer written by the serializer is read back by [int] as the same
    integer, whatever its size and sign; the quote substitution leaves the
    text of an integer as [str] wrote it. *)
Theorem int_text_roundtrip (z : Z) :
  jsonify (PInt z) = Ok (str_of_Z z) /\ py_int (str_of_Z z) = Ok z.
Proof.
  split.
  - unfold jsonify. cbn [dumps]. simpl. f_equal. apply no_dquote_replace.
    unfold str_of_Z, str_of_nat.
    destruct (z <? 0); cbn [all_chars]; apply digits_go_no_dquote; reflexivity.
  - unfold str_of_Z. destruct (Z.ltb_spec z 0) as [Hneg|Hpos].
    + destruct (str_of_nat_read (- z) ltac:(lia)) as (c & s & d & E & Hc & Ht).
      unfold is_digit in Hc.
      destruct (digit_of c) as [v|] eqn:Hv; [|discriminate].
      destruct (digit_plain c v Hv) as (Hs & _).
      unfold py_int. cbn [lstrip].
      replace (is_space "-") with false by reflexivity.
      rewrite E in *.
      assert (L : lstrip (String c s) = String c s)
        by (cbn [lstrip]; rewrite Hs; reflexivity).
      rewrite L, Ht. simpl. f_equal. lia.
    + apply py_int_str_of_nat, Hpos.
Qed.

Lemma digit_not_word (c : ascii) (d : Z) (s : string) :
  digit_of c = Some d ->
  lstrip (String c s) = String c s
  /\ take_sign (String c s) = (false, String c s)
  /\ special_float (String c s) = None.
Proof.
  destruct c as [[] [] [] [] [] [] [] []]; intros H;
    try discriminate H; repeat split; reflexivity.
Qed.

Lemma py_float_str_of_nat (neg : bool) (n : Z) :
  0 <= n ->
  py_float (if neg then String "-" (str_of_nat n) else str_of_nat n)
  = Ok (round_decimal neg n 0).
Proof.
  intros Hn. destruct (str_of_nat_read n Hn) as (c & s & d & E & Hc & Ht).
  unfold is_digit in Hc. destruct (digit_of c) as [v|] eqn:Hv; [|discriminate].
  destruct (digit_not_word c v s Hv) as (L & S & W).
  rewrite E in *.
  assert (P : py_float (if neg then String "-" (String c s) else String c s)
              = (let '(neg', s1) := (neg, String c s) in
                 match special_float s1 with
                 | Some (f, rest) =>
                     if all_space rest then Ok (if neg' then SFopp f else f)
                     else Raise ValueError
                 | None =>
                     let '(ip, n1, r1) := take_digits 0 O s1 in
                     let '(m, n2, r2) :=
                       match r1 with
                       | String "." r => take_digits ip O r
                       | _ => (ip, O, r1)
                       end in
                     match (n1 + n2)%nat with
                     | O => Raise ValueError
                     | S _ =>
                         let '(ex, r3) := take_exponent r2 in
                         if all_space r3
                         then Ok (round_decimal neg' m (ex - Z.of_nat n2))
                         else Raise ValueError
                     end
                 end)).
  { unfold py_float. destruct neg.
    - replace (lstrip (String "-" (String c s))) with (String "-" (String c s))
        by reflexivity.
      reflexivity.
    - rewrite L, S. reflexivity. }
  rewrite P. cbv beta iota. rewrite W, Ht. reflexivity.
Qed.

Lemma round_decimal_integer (neg : bool) (n : positive) :
  Zpos n < 2 ^ 53 -> round_decimal neg (Zpos n) 0 = normal_form neg n.
Proof.
  intros Hn. unfold round_decimal.
  change (0 <=? 0) with true. cbv iota.
  change (Z.to_pos (10 ^ 0)) with 1%positive. rewrite Pos.mul_1_r.
  apply binary_round_normal; lia.
Qed.

(** X16. [float] reads the text of an integer below 2^53 exactly, and [int]
    gives the integer back from the float. *)
Theorem float_of_integer_text (z : Z) :
  Z.abs z < 2 ^ 53 ->
  py_float (str_of_Z z) = Ok (float_of_Z z)
  /\ (f ← py_float (str_of_Z z); int_of_float f) = Ok z.
Proof.
  intros Hz.
  assert (A : py_float (str_of_Z z) = Ok (float_of_Z z)).
  { unfold str_of_Z. destruct (Z.ltb_spec z 0) as [Hneg|Hpos].
    - rewrite (py_float_str_of_nat true (- z)) by lia. f_equal.
      destruct z as [|n|n]; try lia. simpl in Hz.
      apply (round_decimal_integer true n). lia.
    - rewrite (py_float_str_of_nat false z) by lia. f_equal.
      destruct z as [|n|n]; try lia; [reflexivity|]. simpl in Hz.
      apply (round_decimal_integer false n). lia. }
  split; [exact A|]. rewrite A. simpl.
  apply int_of_float_of_Z, Hz.
Qed.

Lemma float_of_integer_text_witness :
  py_float (str_of_Z (-90)) = Ok (float_of_Z (-90))
  /\ (f ← py_float (str_of_Z (-90)); int_of_float f) = Ok (-90).
Proof. apply (float_of_integer_text (-90)). vm_compute. reflexivity. Defined.

(** ** Fields of a coordinate *)

Lemma split_length (sep : ascii) (s : string) :
  length (split sep s) = S (count_char sep s).
Proof.
  induction s as [|c s IH]; [reflexivity|]. cbn [split count_char].
  destruct (Ascii.eqb c sep); cbn [length]; [rewrite IH; reflexivity|].
  destruct (split sep s); cbn [length] in *; lia.
Qed.

Lemma map_result_length {A B : Type} (f : A -> result B) (l : list A)
  (l' : list B) :
  map_result f l = Ok l' -> length l' = length l.
Proof.
  revert l'. induction l as [|a l IH]; intros l' H; simpl in H.
  - injection H as <-. reflexivity.
  - apply bind_Ok in H as (b & _ & H). apply bind_Ok in H as (bs & Hbs & H).
    injection H as <-. simpl. rewrite (IH bs Hbs). reflexivity.
Qed.

(** X17. A coordinate text that does not have exactly two colons is refused
    with [ValueError], as a right ascension and as a declination. *)
Theorem coordinate_colons (text : string) :
  count_char ":" text <> 2%nat ->
  int_triple text = Raise ValueError
  /\ ra_of_text text = Raise ValueError
  /\ dec_of_text text = Raise ValueError.
Proof.
  intros H.
  assert (A : int_triple text = Raise ValueError).
  { destruct (int_triple text) as [[[a b] c]|e] eqn:E;
      [|f_equal; eapply int_triple_raise, E].
    exfalso. unfold int_triple in E. apply bind_Ok in E as (l & Hl & E).
    apply map_result_length in Hl. rewrite split_length in Hl.
    destruct l as [|x [|y [|w [|? ?]]]]; try discriminate E.
    simpl in Hl. lia. }
  unfold ra_of_text, dec_of_text. rewrite A. repeat split.
Qed.

Lemma coordinate_colons_witness :
  int_triple "01:02" = Raise ValueError
  /\ ra_of_text "01:02" = Raise ValueError
  /\ dec_of_text "01:02" = Raise ValueError.
Proof. apply (coordinate_colons "01:02"). vm_compute. lia. Defined.
